(** * tomte: content fingerprints and creation dates of image files

    A shallow embedding of [tomte.py] and the properties of its
    fingerprint engine ([_calc_checksum]), its timestamp extractor
    ([_extract_date]), the per-file unit of work ([process_file]) and the
    command-line driver ([cli]) with its worker pool.

    Python values are modelled as follows.
    - [bytes] objects are [list byte]; [str] objects are [string], each
      character standing for one code point below 256.
    - Python integers are [Z].
    - A call that may raise returns a [result]: [Ok v] or [Raise e].
    - [hashlib.sha1] is the SHA-1 function of FIPS 180-4, written out on
      32-bit words held in [Z], with the hasher object of [hashlib] as a
      record that is threaded through the calls of [update]. *)

From Stdlib Require Import ZArith List Ascii String Lia.
From Stdlib.Strings Require Import Byte.
From Stdlib Require DecimalString.
From stdpp Require Import base option list gmap strings relations.
From Equations Require Import Equations.
From Equations.Prop Require Import Logic.
Import ListNotations.

Local Open Scope Z_scope.

(** ** Exceptions and results *)

Inductive exn : Type :=
| KeyError            (* a missing dictionary key *)
| ValueError          (* [strptime]: the text does not match, or no such date *)
| TypeError           (* [strptime]: the argument is not a [str] *)
| OSError             (* [PIL.Image.open]: no such file, a directory, or
                         [UnidentifiedImageError] (a subclass of [OSError]);
                         the codec: a payload that cannot be decoded *)
| BadParameter.       (* [click.exceptions.BadParameter] *)

Inductive result (A : Type) : Type :=
| Ok (v : A)
| Raise (e : exn).
Arguments Ok {A} v.
Arguments Raise {A} e.

#[global] Instance result_ret : MRet result := fun A v => Ok v.
#[global] Instance result_bind : MBind result := fun A B k r =>
  match r with
  | Ok v => k v
  | Raise e => Raise e
  end.

Definition is_ok {A : Type} (r : result A) : bool :=
  match r with Ok _ => true | Raise _ => false end.

Definition ok_value {A : Type} (r : result A) : option A :=
  match r with Ok v => Some v | Raise _ => None end.

(** ** hashlib.sha1 *)

Module SHA1.

Definition mask32 : Z := 0xFFFFFFFF.
Definition wrap32 (x : Z) : Z := Z.land x mask32.
Definition add32 (a b : Z) : Z := wrap32 (a + b).
Definition not32 (a : Z) : Z := Z.lxor a mask32.
Definition rotl32 (n x : Z) : Z :=
  wrap32 (Z.lor (Z.shiftl x n) (Z.shiftr x (32 - n))).

Definition byte_val (b : byte) : Z := Z.of_N (Byte.to_N b).

(** Four bytes, most significant first, as one 32-bit word. *)
Definition be32 (b0 b1 b2 b3 : byte) : Z :=
  Z.lor (Z.shiftl (byte_val b0) 24)
    (Z.lor (Z.shiftl (byte_val b1) 16)
       (Z.lor (Z.shiftl (byte_val b2) 8) (byte_val b3))).

Fixpoint words_of_bytes (l : list byte) : list Z :=
  match l with
  | b0 :: b1 :: b2 :: b3 :: r => be32 b0 b1 b2 b3 :: words_of_bytes r
  | _ => []
  end.

(** The message schedule, built with the most recent word first:
    [W t = rotl 1 (W (t-3) xor W (t-8) xor W (t-14) xor W (t-16))]. *)
Fixpoint expand (n : nat) (w : list Z) : list Z :=
  match n with
  | O => w
  | S n' =>
      let x := Z.lxor (Z.lxor (nth 2 w 0) (nth 7 w 0))
                      (Z.lxor (nth 13 w 0) (nth 15 w 0)) in
      expand n' (rotl32 1 x :: w)
  end.

Definition schedule (block : list byte) : list Z :=
  rev (expand 64 (rev (words_of_bytes block))).

Record words5 : Type := W5 { h0 : Z; h1 : Z; h2 : Z; h3 : Z; h4 : Z }.

Definition round_f (t : nat) (b c d : Z) : Z :=
  if (t <? 20)%nat then Z.lor (Z.land b c) (Z.land (not32 b) d)
  else if (t <? 40)%nat then Z.lxor (Z.lxor b c) d
  else if (t <? 60)%nat then
    Z.lor (Z.lor (Z.land b c) (Z.land b d)) (Z.land c d)
  else Z.lxor (Z.lxor b c) d.

Definition round_k (t : nat) : Z :=
  if (t <? 20)%nat then 0x5A827999
  else if (t <? 40)%nat then 0x6ED9EBA1
  else if (t <? 60)%nat then 0x8F1BBCDC
  else 0xCA62C1D6.

Definition round (t : nat) (wt : Z) (s : words5) : words5 :=
  let '(W5 a b c d e) := s in
  let temp :=
    add32 (add32 (add32 (add32 (rotl32 5 a) (round_f t b c d)) e) (round_k t)) wt in
  W5 temp a (rotl32 30 b) c d.

Fixpoint rounds (t : nat) (ws : list Z) (s : words5) : words5 :=
  match ws with
  | [] => s
  | wt :: ws' => rounds (S t) ws' (round t wt s)
  end.

(** One 64-byte block folded into the chaining value. *)
Definition compress (h : words5) (block : list byte) : words5 :=
  let s := rounds 0 (schedule block) h in
  W5 (add32 (h0 h) (h0 s)) (add32 (h1 h) (h1 s)) (add32 (h2 h) (h2 s))
     (add32 (h3 h) (h3 s)) (add32 (h4 h) (h4 s)).

(** The hasher object: the chaining value, the bytes of the block that
    is not yet full, and the number of bytes fed so far. *)
Record hasher : Type := Hasher {
  chain : words5;
  pending : list byte;
  fed : Z
}.

(** [hashlib.sha1()] *)
Definition new : hasher :=
  Hasher (W5 0x67452301 0xEFCDAB89 0x98BADCFE 0x10325476 0xC3D2E1F0) [] 0.

Definition update_byte (h : hasher) (b : byte) : hasher :=
  let p := pending h ++ [b] in
  if (length p =? 64)%nat
  then Hasher (compress (chain h) p) [] (fed h + 1)
  else Hasher (chain h) p (fed h + 1).

(** [hasher.update(data)] *)
Definition update (h : hasher) (data : list byte) : hasher :=
  fold_left update_byte data h.

Definition be64 (n : Z) : list byte :=
  map (fun i : Z =>
         match Byte.of_N (Z.to_N (Z.land (Z.shiftr n (8 * i)) 255)) with
         | Some b => b
         | None => x00
         end)
      [7; 6; 5; 4; 3; 2; 1; 0].

(** The padding: one bit, zeros up to 56 modulo 64, the length in bits. *)
Definition padding (h : hasher) : list byte :=
  x80 :: repeat x00 (Z.to_nat ((55 - fed h) mod 64)) ++ be64 (8 * fed h).

(** The digest is taken on a copy: the hasher itself is unchanged. *)
Definition final (h : hasher) : words5 := chain (update h (padding h)).

Definition word_bytes (w : Z) : list Z :=
  [Z.land (Z.shiftr w 24) 255; Z.land (Z.shiftr w 16) 255;
   Z.land (Z.shiftr w 8) 255; Z.land w 255].

(** [hasher.digest()], each byte as its value. *)
Definition digest (h : hasher) : list Z :=
  let '(W5 a b c d e) := final h in
  word_bytes a ++ word_bytes b ++ word_bytes c ++ word_bytes d ++ word_bytes e.

Definition hex_digit (n : Z) : ascii :=
  if n <? 10 then ascii_of_nat (Z.to_nat (48 + n))
  else ascii_of_nat (Z.to_nat (87 + n)).

Definition hex_byte (b : Z) : list ascii :=
  [hex_digit (Z.shiftr b 4); hex_digit (Z.land b 15)].

(** [hasher.hexdigest()] *)
Definition hexdigest (h : hasher) : string :=
  string_of_list_ascii (flat_map hex_byte (digest h)).

(** [hashlib.sha1(data).hexdigest()]: the digest of a whole buffer. *)
Definition sha1 (data : list byte) : string := hexdigest (update new data).

End SHA1.

(** ** io.BytesIO *)

Record BytesIO : Type := mkBytesIO {
  buffer : list byte;
  cursor : nat
}.

(** [io.BytesIO()] *)
Definition BytesIO_new : BytesIO := mkBytesIO [] 0.

(** [img_io.write(data)] at the end of a stream whose cursor is at its end. *)
Definition BytesIO_write (io : BytesIO) (data : list byte) : BytesIO :=
  mkBytesIO (buffer io ++ data) (length (buffer io ++ data)).

(** [img_io.seek(0)] and the like. *)
Definition BytesIO_seek (io : BytesIO) (offset : nat) : BytesIO :=
  mkBytesIO (buffer io) offset.

(** [img_io.read(size)]: at most [size] bytes from the cursor on, all of
    them when [size] is negative; the cursor moves past what was read. *)
Definition BytesIO_read (io : BytesIO) (size : Z) : list byte * BytesIO :=
  let rest := drop (cursor io) (buffer io) in
  let chunk := if size <? 0 then rest else take (Z.to_nat size) rest in
  (chunk, mkBytesIO (buffer io) (cursor io + length chunk)).

(** Lines 32-33: [while chunk := img_io.read(block_size): hasher.update(chunk)].
    An empty [bytes] object is false, so the loop ends at the first empty
    read; every other read moves the cursor forward. *)
Equations? chunk_loop (block_size : Z) (img_io : BytesIO) (hasher : SHA1.hasher)
  : SHA1.hasher by wf (length (buffer img_io) - cursor img_io)%nat lt :=
  chunk_loop block_size img_io hasher with inspect (BytesIO_read img_io block_size) := {
    | exist _ ([], _) _ => hasher
    | exist _ (b :: chunk, img_io') Hread =>
        chunk_loop block_size img_io' (SHA1.update hasher (b :: chunk)) }.
Proof.
  assert (length (b :: chunk) <= length (buffer img_io) - cursor img_io)%nat as Hlen.
  { match goal with H : _ = b :: chunk |- _ => rewrite <- H end.
    destruct (block_size <? 0); rewrite ?length_take, length_drop; lia. }
  match goal with H : _ = b :: chunk |- _ => rewrite H end.
  simpl in *. lia.
Qed.

(** ** datetime *)

Record datetime : Type := mkdatetime {
  year : Z; month : Z; day : Z;
  hour : Z; minute : Z; second : Z
}.

(** Line 10: [ERROR_DATE = datetime.datetime(1900, 1, 1)] *)
Definition ERROR_DATE : datetime := mkdatetime 1900 1 1 0 0 0.

Definition is_leap (y : Z) : bool :=
  (y mod 4 =? 0) && (negb (y mod 100 =? 0) || (y mod 400 =? 0)).

Definition days_in_month (y m : Z) : Z :=
  if m =? 2 then (if is_leap y then 29 else 28)
  else if (m =? 4) || (m =? 6) || (m =? 9) || (m =? 11) then 30
  else 31.

(** [datetime.datetime(y, m, d, H, M, S)] refuses fields out of range. *)
Definition datetime_new (y m d H M s : Z) : result datetime :=
  if (1 <=? y) && (y <=? 9999) && (1 <=? m) && (m <=? 12)
     && (1 <=? d) && (d <=? days_in_month y m)
     && (0 <=? H) && (H <=? 23) && (0 <=? M) && (M <=? 59)
     && (0 <=? s) && (s <=? 59)
  then Ok (mkdatetime y m d H M s)
  else Raise ValueError.

Definition decimal (n : Z) : string :=
  DecimalString.NilZero.string_of_int (Z.to_int n).

(** ["%0wd" % n] for a number that is not negative. *)
Definition zfill (w : nat) (n : Z) : string :=
  let s := decimal n in
  string_of_list_ascii (replicate (w - String.length s) "0"%char) +:+ s.

(** [str(d)]: [d.isoformat(sep=' ')] of a datetime without microseconds
    or time zone, as [strptime] and [ERROR_DATE] make them. *)
Definition datetime_str (d : datetime) : string :=
  zfill 4 (year d) +:+ "-" +:+ zfill 2 (month d) +:+ "-" +:+ zfill 2 (day d)
  +:+ " " +:+ zfill 2 (hour d) +:+ ":" +:+ zfill 2 (minute d) +:+ ":"
  +:+ zfill 2 (second d).

(** ** datetime.datetime.strptime(s, '%Y:%m:%d %H:%M:%S')

    [_strptime] turns the format into a regular expression, one group per
    directive and [\s+] for the blank, takes the first match that the
    backtracking matcher finds at the start of the text, and refuses text
    that the match leaves over. A matcher below lists its matches in the
    order in which backtracking tries them, each with the text it leaves. *)

Module Strptime.

Definition chars : Type := list ascii.
Definition matcher : Type := chars -> list (chars * chars).

Definition code (c : ascii) : Z := Z.of_nat (nat_of_ascii c).

Definition one (p : ascii -> bool) : matcher := fun s =>
  match s with
  | c :: r => if p c then [([c], r)] else []
  | [] => []
  end.

Definition cat (p q : matcher) : matcher := fun s =>
  '(m1, r1) ← p s; '(m2, r2) ← q r1; [(m1 ++ m2, r2)].

Definition alt (p q : matcher) : matcher := fun s => p s ++ q s.

Definition range (lo hi : ascii) : ascii -> bool := fun c =>
  (code lo <=? code c) && (code c <=? code hi).

Definition chr (a : ascii) : matcher := one (Ascii.eqb a).

(** [\d] *)
Definition digit : matcher := one (range "0" "9").

(** [\s] of a [str] pattern, on the code points below 256. *)
Definition is_space (c : ascii) : bool :=
  let n := code c in
  ((9 <=? n) && (n <=? 13)) || ((28 <=? n) && (n <=? 32))
  || (n =? 133) || (n =? 160).

(** [\s+]: greedy, the longest run first. *)
Fixpoint spaces (s : chars) : list (chars * chars) :=
  match s with
  | c :: r =>
      if is_space c
      then map (fun '(m, r') => (c :: m, r')) (spaces r) ++ [([c], r)]
      else []
  | [] => []
  end.

(** [%Y]: [\d\d\d\d] *)
Definition re_Y : matcher := cat digit (cat digit (cat digit digit)).
(** [%m]: [1[0-2]|0[1-9]|[1-9]] *)
Definition re_m : matcher :=
  alt (cat (chr "1") (one (range "0" "2")))
    (alt (cat (chr "0") (one (range "1" "9"))) (one (range "1" "9"))).
(** [%d]: [3[0-1]|[1-2]\d|0[1-9]|[1-9]| [1-9]] *)
Definition re_d : matcher :=
  alt (cat (chr "3") (one (range "0" "1")))
    (alt (cat (one (range "1" "2")) digit)
       (alt (cat (chr "0") (one (range "1" "9")))
          (alt (one (range "1" "9"))
             (cat (chr " ") (one (range "1" "9")))))).
(** [%H]: [2[0-3]|[0-1]\d|\d] *)
Definition re_H : matcher :=
  alt (cat (chr "2") (one (range "0" "3")))
    (alt (cat (one (range "0" "1")) digit) digit).
(** [%M]: [[0-5]\d|\d] *)
Definition re_M : matcher := alt (cat (one (range "0" "5")) digit) digit.
(** [%S]: [6[0-1]|[0-5]\d|\d] *)
Definition re_S : matcher :=
  alt (cat (chr "6") (one (range "0" "1")))
    (alt (cat (one (range "0" "5")) digit) digit).

(** [int(text)] of a group: decimal digits, after a blank at most. *)
Definition int (m : chars) : Z :=
  fold_left (fun acc c => if range "0" "9" c then 10 * acc + (code c - 48) else acc)
    m 0.

(** The matches of the whole expression, with the groups as numbers. *)
Definition format_regex (s : chars) : list ((Z * Z * Z * Z * Z * Z) * chars) :=
  '(gY, s) ← re_Y s; '(_, s) ← chr ":" s;
  '(gm, s) ← re_m s; '(_, s) ← chr ":" s;
  '(gd, s) ← re_d s; '(_, s) ← spaces s;
  '(gH, s) ← re_H s; '(_, s) ← chr ":" s;
  '(gM, s) ← re_M s; '(_, s) ← chr ":" s;
  '(gS, s) ← re_S s;
  [((int gY, int gm, int gd, int gH, int gM, int gS), s)].

Definition strptime (data_string : string) : result datetime :=
  match format_regex (list_ascii_of_string data_string) with
  | [] => Raise ValueError   (* the text does not match the format *)
  | ((y, m, d, H, M, s), []) :: _ => datetime_new y m d H M s
  | (_, _ :: _) :: _ => Raise ValueError   (* unconverted data remains *)
  end.

End Strptime.

(** ** PIL.Image and the file system *)

(** The value of a metadata tag: text for the date tags of a well-formed
    block, other types where a file stores them. *)
Inductive exif_value : Type :=
| ExifStr (s : string)
| ExifInt (n : Z)
| ExifBytes (b : list byte).

(** What [PIL.Image.open] makes of an image file: the format it
    identified, the pixel payload, and the metadata tag dictionary that
    [getexif] returns. *)
Record Image : Type := mkImage {
  im_format : string;
  im_pixels : list byte;
  im_exif : gmap Z exif_value
}.

(** A [pathlib.Path], as its [parts]: the root, if any, comes first. *)
Abbreviation Path := (list string).

(** [file_path.name]: the last part, unless it is the root. *)
Definition Path_name (p : Path) : string :=
  match p with
  | [] => ""
  | ["/"%string] => ""
  | _ => List.last p ""%string
  end.

(** A regular file: its modification time and what the image library
    finds in its bytes, [None] when they are not an image. *)
Record file : Type := mkfile {
  file_mtime : Z;
  file_image : option Image
}.

Inductive node : Type :=
| Directory
| Regular (f : file)
| Special.            (* a socket, a device, a pipe *)

(** [exif[tag]] *)
Definition Exif_getitem (exif : gmap Z exif_value) (tag : Z) : result exif_value :=
  match exif !! tag with
  | Some v => Ok v
  | None => Raise KeyError
  end.

(** [datetime.datetime.strptime(v, '%Y:%m:%d %H:%M:%S')] *)
Definition strptime (v : exif_value) : result datetime :=
  match v with
  | ExifStr s => Strptime.strptime s
  | _ => Raise TypeError
  end.

(** What a run of the program writes and does, in order. *)
Inductive event : Type :=
| Print (line : string)        (* one line on the standard output *)
| PoolStart (processes : nat)  (* a pool of that many workers is created *)
| PoolJoin.                    (* [pool.join()] has returned *)

(** The tasks of a pool: those waiting, those a worker has claimed, those
    finished (in the order in which they finished) and the lines that the
    callback has printed. *)
Record pool_state : Type := mkPool {
  queue : list Path;
  running : list Path;
  finished : list Path;
  printed : list string
}.

(** What the scheduler of a pool decides next. *)
Inductive choice : Type :=
| Claim
| Finish (i : nat).

Section Tomte.

(** The environment of a run: the file system, the encoder of the image
    library, the two directory listings, and the number of processing
    units that [os.cpu_count()] reports, if any. *)
Variable fs : gmap Path node.
Variable encode : Image -> string -> result (list byte).
Variable glob_jpg rglob_jpg : Path -> list Path.
Variable cpu_count : option positive.

(** [PIL.Image.open(image_path)] *)
Definition Image_open (image_path : Path) : result Image :=
  match fs !! image_path with
  | Some (Regular f) =>
      match file_image f with
      | Some im => Ok im
      | None => Raise OSError
      end
  | _ => Raise OSError
  end.

(** [im.save(fp, format)], with no other argument. *)
Definition Image_save (im : Image) (fp : BytesIO) (format : string)
  : result BytesIO :=
  data ← encode im format; Ok (BytesIO_write fp data).

(** Lines 13-35. *)
Definition _calc_checksum (image_path : Path) (block_size : Z) : result string :=
  let hasher := SHA1.new in
  let img_io := BytesIO_new in
  im ← Image_open image_path;
  img_io ← Image_save im img_io (im_format im);
  let img_io := BytesIO_seek img_io 0 in
  let hasher := chunk_loop block_size img_io hasher in
  Ok (SHA1.hexdigest hasher).

(** Lines 38-55. Only [KeyError] is caught. *)
Definition _extract_date (image_path : Path) : result datetime :=
  im ← Image_open image_path;
  match (let exif := im_exif im in v ← Exif_getitem exif 306; strptime v) with
  | Ok cdate => Ok cdate
  | Raise KeyError => Ok ERROR_DATE
  | Raise e => Raise e
  end.

(** Lines 58-62; [block_size] takes its default. *)
Definition process_file (file_path : Path) : result string :=
  hash_str ← _calc_checksum file_path 8192;
  cdate ← _extract_date file_path;
  Ok (Path_name file_path +:+ " -- " +:+ datetime_str cdate +:+ " -- " +:+ hash_str).

(** [multiprocessing.Pool()]: [os.cpu_count() or 1] workers. *)
Definition Pool_processes : nat :=
  match cpu_count with
  | Some n => Pos.to_nat n
  | None => 1%nat
  end.

(** What the pool does with the outcome of a task: [apply_async] was
    given a [callback], which prints the value that [process_file]
    returned, and no [error_callback], so an exception stays in a
    result object that nobody reads. *)
Definition deliver (r : result string) : list string :=
  match r with
  | Ok line => [line]
  | Raise _ => []
  end.

(** Lines 83-86. The tasks are queued in the order of [file_list]; a
    free worker claims the first that waits; the claimed tasks finish in
    any order. *)
Inductive pool_step (processes : nat) : pool_state -> pool_state -> Prop :=
| step_claim f q r d o :
    (length r < processes)%nat ->
    pool_step processes (mkPool (f :: q) r d o) (mkPool q (r ++ [f]) d o)
| step_finish q r1 f r2 d o :
    pool_step processes (mkPool q (r1 ++ f :: r2) d o)
      (mkPool q (r1 ++ r2) (d ++ [f]) (o ++ deliver (process_file f))).

Definition pool_init (file_list : list Path) : pool_state :=
  mkPool file_list [] [] [].

(** [pool.close(); pool.join()] returns when no task waits or runs. *)
Definition pool_idle (s : pool_state) : Prop :=
  queue s = [] /\ running s = [].

Definition pool_run (processes : nat) (file_list : list Path) (s : pool_state)
  : Prop :=
  rtc (pool_step processes) (pool_init file_list) s /\ pool_idle s.

(** The same steps as a function of the choice that the scheduler
    makes: a free worker claims the first waiting task, or the task at a
    given place among those running comes to its end. *)
Definition pool_do (processes : nat) (c : choice) (s : pool_state)
  : option pool_state :=
  match c with
  | Claim =>
      match queue s with
      | f :: q =>
          if (length (running s) <? processes)%nat
          then Some (mkPool q (running s ++ [f]) (finished s) (printed s))
          else None
      | [] => None
      end
  | Finish i =>
      match running s !! i with
      | Some f =>
          Some (mkPool (queue s) (delete i (running s)) (finished s ++ [f])
                  (printed s ++ deliver (process_file f)))
      | None => None
      end
  end.

Fixpoint pool_exec (processes : nat) (schedule : list choice) (s : pool_state)
  : option pool_state :=
  match schedule with
  | [] => Some s
  | c :: schedule' =>
      match pool_do processes c s with
      | Some s' => pool_exec processes schedule' s'
      | None => None
      end
  end.

(** Line 80: [click.echo(f"COUNT: {len(file_list)}")] *)
Definition count_line (file_list : list Path) : string :=
  "COUNT: " +:+ decimal (Z.of_nat (length file_list)).

(** Lines 69-93: the events of a run of [cli] and the exception that ends
    it, if any. The option [dest] is accepted and not used. *)
Inductive cli (src : Path) (dest : string) (recurse : bool)
  : list event -> option exn -> Prop :=
| cli_dir s :
    let file_list := if recurse then rglob_jpg src else glob_jpg src in
    fs !! src = Some Directory ->
    pool_run Pool_processes file_list s ->
    cli src dest recurse
      (Print (count_line file_list) :: PoolStart Pool_processes
         :: map Print (printed s) ++ [PoolJoin]) None
| cli_file_return f line :
    fs !! src = Some (Regular f) ->
    process_file src = Ok line ->
    cli src dest recurse [Print line] None
| cli_file_raise f e :
    fs !! src = Some (Regular f) ->
    process_file src = Raise e ->
    cli src dest recurse [] (Some e)
| cli_other :
    fs !! src = Some Special ->
    cli src dest recurse [] (Some BadParameter)
| cli_missing :
    fs !! src = None ->
    cli src dest recurse [] (Some BadParameter).

(** The lines of the tasks of [l] that return, in the order of [l]. *)
Definition lines_of (l : list Path) : list string :=
  l ≫= fun f => deliver (process_file f).

(** What holds of every state that a pool reaches: each task of the
    list is in one place, the lines printed are those of the tasks that
    have finished, and no more tasks run than there are workers. *)
Record pool_inv (processes : nat) (file_list : list Path) (s : pool_state)
  : Prop := {
  inv_tasks : queue s ++ running s ++ finished s ≡ₚ file_list;
  inv_printed : printed s = lines_of (finished s);
  inv_bound : (length (running s) <= processes)%nat
}.

(** Every step uses up some of what is left to do. *)
Definition pool_left (s : pool_state) : nat :=
  2 * length (queue s) + length (running s).

End Tomte.

(** A character of [0123456789abcdef]. *)
Definition is_lower_hex (c : ascii) : bool :=
  let n := nat_of_ascii c in
  ((48 <=? n) && (n <=? 57))%nat || ((97 <=? n) && (n <=? 102))%nat.

(** ** What the loop reads, and the dates that are dates

    The chunks that the loop of lines 32-33 reads, in order: each is what
    one call of [img_io.read(block_size)] returned and what one call of
    [hasher.update] was given. *)
Equations? chunk_reads (block_size : Z) (img_io : BytesIO) : list (list byte)
  by wf (length (buffer img_io) - cursor img_io)%nat lt :=
  chunk_reads block_size img_io with inspect (BytesIO_read img_io block_size) := {
    | exist _ ([], _) _ => []
    | exist _ (b :: chunk, img_io') Hread =>
        (b :: chunk) :: chunk_reads block_size img_io' }.
Proof.
  assert (length (b :: chunk) <= length (buffer img_io) - cursor img_io)%nat as Hlen.
  { match goal with H : _ = b :: chunk |- _ => rewrite <- H end.
    destruct (block_size <? 0); rewrite ?length_take, length_drop; lia. }
  match goal with H : _ = b :: chunk |- _ => rewrite H end.
  simpl in *. lia.
Qed.

(** The fields of a date and time of the calendar, as [datetime.datetime]
    accepts them. *)
Definition datetime_valid (d : datetime) : bool :=
  (1 <=? year d) && (year d <=? 9999) && (1 <=? month d) && (month d <=? 12)
  && (1 <=? day d) && (day d <=? days_in_month (year d) (month d))
  && (0 <=? hour d) && (hour d <=? 23) && (0 <=? minute d) && (minute d <=? 59)
  && (0 <=? second d) && (second d <=? 59).

(** Whether [zfill] gives exactly [w] decimal digits that read back as the
    number. *)
Definition zfill_exact (w : nat) (n : Z) : bool :=
  let cs := list_ascii_of_string (zfill w n) in
  (length cs =? w)%nat
  && forallb (Strptime.range "0" "9") cs
  && (Strptime.int cs =? n).

(** The text of a date in a metadata tag, as the format of line 49 reads
    it: [YYYY:MM:DD HH:MM:SS]. *)
Definition exif_text (d : datetime) : string :=
  zfill 4 (year d) +:+ ":" +:+ zfill 2 (month d) +:+ ":" +:+ zfill 2 (day d)
  +:+ " " +:+ zfill 2 (hour d) +:+ ":" +:+ zfill 2 (minute d) +:+ ":"
  +:+ zfill 2 (second d).

(** ** A sample environment

    A directory [photos] with four files that end in [.jpg]: [a.jpg] with a
    date tag, [b.jpg] with the pixels of [a.jpg] and no metadata, [c.jpg]
    whose date tag is written with dashes, and [d.jpg], which is not an
    image. The sample encoder writes the name of the format and then the
    pixel payload. *)

Module Sample.

Definition stored (im : Image) (format : string) : result (list byte) :=
  Ok (list_byte_of_string format ++ im_pixels im).

Definition pixels : list byte := list_byte_of_string "abc".

Definition a_jpg : Image :=
  mkImage "JPEG" pixels {[ 306 := ExifStr "2020:01:01 10:00:00" ]}.
Definition b_jpg : Image := mkImage "JPEG" pixels ∅.
Definition c_jpg : Image :=
  mkImage "JPEG" (list_byte_of_string "xyz") {[ 306 := ExifStr "2020-01-01 10:00:00" ]}.

Definition photos : Path := ["photos"%string].
Definition a : Path := ["photos"; "a.jpg"]%string.
Definition b : Path := ["photos"; "b.jpg"]%string.
Definition c : Path := ["photos"; "c.jpg"]%string.
Definition d : Path := ["photos"; "d.jpg"]%string.

Definition fs : gmap Path node :=
  <[ photos := Directory ]>
  (<[ a := Regular (mkfile 1577872800 (Some a_jpg)) ]>
  (<[ b := Regular (mkfile 1600000000 (Some b_jpg)) ]>
  (<[ c := Regular (mkfile 1600000001 (Some c_jpg)) ]>
  (<[ d := Regular (mkfile 1600000002 None) ]> ∅)))).

Definition glob_jpg (p : Path) : list Path :=
  if decide (p = photos) then [a; b; c; d] else [].

End Sample.

(** ** A second sample

    The files of the first sample, a copy of [a.jpg] in another directory,
    with another modification time and one more metadata tag, and a
    directory in which no name ends in [.jpg]. *)

Module Archive.

Definition copy_jpg : Image :=
  mkImage "JPEG" Sample.pixels
    (<[ 271 := ExifStr "Camera" ]> {[ 306 := ExifStr "2020:01:01 10:00:00" ]}).

Definition backup : Path := ["backup"%string].
Definition copy : Path := ["backup"; "2020"; "a.jpg"]%string.
Definition empty : Path := ["empty"%string].

Definition fs : gmap Path node :=
  <[ backup := Directory ]>
  (<[ copy := Regular (mkfile 1700000000 (Some copy_jpg)) ]>
  (<[ empty := Directory ]> Sample.fs)).

End Archive.

(** * Properties

    ** The models of the libraries, on known values *)

(** The model agrees with the test vectors of FIPS 180-4. *)
Example sha1_empty :
  SHA1.hexdigest SHA1.new = "da39a3ee5e6b4b0d3255bfef95601890afd80709"%string.
Proof. vm_compute. reflexivity. Qed.

Example sha1_abc :
  SHA1.hexdigest (SHA1.update SHA1.new (list_byte_of_string "abc"))
  = "a9993e364706816aba3e25717850c26c9cd0d89d"%string.
Proof. vm_compute. reflexivity. Qed.

Example sha1_two_blocks :
  SHA1.hexdigest
    (SHA1.update SHA1.new
       (list_byte_of_string
          "abcdbcdecdefdefgefghfghighijhijkijkljklmklmnlmnomnopnopq"))
  = "84983e441c3bd26ebaae4aa1f95129e5e54670f1"%string.
Proof. vm_compute. reflexivity. Qed.

Example sha1_four_blocks :
  SHA1.sha1 (repeat "a"%byte 200) = "e61cfffe0d9195a525fc6cf06ca2d77119c24a40"%string.
Proof. vm_compute. reflexivity. Qed.

(** The dates of the models, on the texts of the design's example. *)
Example ERROR_DATE_str : datetime_str ERROR_DATE = "1900-01-01 00:00:00"%string.
Proof. reflexivity. Qed.

Example strptime_spec_example :
  Strptime.strptime "2020:01:01 10:00:00" = Ok (mkdatetime 2020 1 1 10 0 0).
Proof. reflexivity. Qed.

Example strptime_short_fields :
  Strptime.strptime "1999:7:4  9:5:3" = Ok (mkdatetime 1999 7 4 9 5 3).
Proof. reflexivity. Qed.

Example strptime_dashes : Strptime.strptime "2020-01-01 10:00:00" = Raise ValueError.
Proof. reflexivity. Qed.

Example strptime_trailing : Strptime.strptime "2020:01:01 10:00:00Z" = Raise ValueError.
Proof. reflexivity. Qed.

Example strptime_no_such_day : Strptime.strptime "2021:02:30 10:00:00" = Raise ValueError.
Proof. reflexivity. Qed.

Example datetime_str_example :
  datetime_str (mkdatetime 2020 1 1 10 0 0) = "2020-01-01 10:00:00"%string.
Proof. reflexivity. Qed.

Example process_file_a :
  process_file Sample.fs Sample.stored Sample.a
  = Ok "a.jpg -- 2020-01-01 10:00:00 -- 658ce7d727ca5d58e1ff48393985a2ed6dcd1dbc"%string.
Proof. vm_compute. reflexivity. Qed.

(** ** Results and the chunk loop *)

Lemma result_bind_ext {A B : Type} (r : result A) (f g : A -> result B) :
  (forall v, f v = g v) -> r ≫= f = r ≫= g.
Proof. intros Hfg. destruct r as [v | e]; [apply Hfg | reflexivity]. Qed.

Example chunk_loop_abc_2 :
  SHA1.hexdigest
    (chunk_loop 2 (mkBytesIO (list_byte_of_string "abc") 0) SHA1.new)
  = "a9993e364706816aba3e25717850c26c9cd0d89d"%string.
Proof. vm_compute. reflexivity. Qed.


Lemma update_app h a b :
  SHA1.update h (a ++ b) = SHA1.update (SHA1.update h a) b.
Proof. unfold SHA1.update. apply fold_left_app. Qed.


(** What one read returns, followed by what is left after it, is what was
    left before it. *)
Lemma BytesIO_read_split img_io size :
  let '(chunk, img_io') := BytesIO_read img_io size in
  drop (cursor img_io) (buffer img_io)
  = chunk ++ drop (cursor img_io') (buffer img_io').
Proof.
  unfold BytesIO_read; simpl.
  rewrite <- drop_drop.
  destruct (size <? 0).
  - by rewrite drop_all, app_nil_r.
  - rewrite length_take.
    set (rest := drop (cursor img_io) (buffer img_io)).
    destruct (Nat.le_gt_cases (Z.to_nat size) (length rest)).
    + rewrite Nat.min_l by done. by rewrite take_drop.
    + rewrite Nat.min_r by lia.
      rewrite take_ge by lia. by rewrite drop_all, app_nil_r.
Qed.

(** A read of a nonzero size is empty only at the end of the stream. *)
Lemma BytesIO_read_nil img_io size :
  size <> 0 ->
  (BytesIO_read img_io size).1 = [] ->
  drop (cursor img_io) (buffer img_io) = [].
Proof.
  unfold BytesIO_read; simpl. intros Hsize.
  destruct (size <? 0) eqn:Hneg; [done |].
  apply Z.ltb_ge in Hneg.
  destruct (Z.to_nat size) as [| n] eqn:Hn; [lia |].
  by destruct (drop (cursor img_io) (buffer img_io)).
Qed.

Lemma chunk_loop_nonzero block_size img_io hasher :
  block_size <> 0 ->
  chunk_loop block_size img_io hasher
  = SHA1.update hasher (drop (cursor img_io) (buffer img_io)).
Proof.
  intros Hbs. funelim (chunk_loop block_size img_io hasher).
  - rewrite (BytesIO_read_nil img_io block_size Hbs); [done |].
    unfold BytesIO_read; simpl. done.
  - match goal with IH : _ -> chunk_loop _ _ _ = _ |- _ => rewrite IH by done end.
    pose proof (BytesIO_read_split img_io block_size) as Hsplit.
    unfold BytesIO_read in Hsplit; cbn [cursor buffer] in Hsplit |- *.
    match goal with H : _ = b :: chunk |- _ => rewrite H in Hsplit |- * end.
    symmetry. rewrite Hsplit at 1. apply update_app.
Qed.

(** ** The fingerprint engine *)

Section Fingerprint.

Variable fs : gmap Path node.
Variable encode : Image -> string -> result (list byte).

(** [_calc_checksum] hashes the stream that holds what the encoder wrote,
    read from its start. *)
Lemma calc_checksum_stream image_path block_size :
  _calc_checksum fs encode image_path block_size
  = im ← Image_open fs image_path;
    data ← encode im (im_format im);
    Ok (SHA1.hexdigest (chunk_loop block_size (mkBytesIO data 0) SHA1.new)).
Proof.
  unfold _calc_checksum, Image_save.
  apply result_bind_ext; intros im.
  destruct (encode im (im_format im)) as [data |]; reflexivity.
Qed.

Lemma calc_checksum_nonzero image_path block_size :
  block_size <> 0 ->
  _calc_checksum fs encode image_path block_size
  = im ← Image_open fs image_path;
    data ← encode im (im_format im);
    Ok (SHA1.sha1 data).
Proof.
  intros Hbs. rewrite calc_checksum_stream.
  apply result_bind_ext; intros im. apply result_bind_ext; intros data.
  rewrite chunk_loop_nonzero by exact Hbs. reflexivity.
Qed.


End Fingerprint.








(** ** The timestamp extractor *)

Lemma datetime_new_raises y m d H M s e :
  datetime_new y m d H M s = Raise e -> e = ValueError.
Proof.
  unfold datetime_new. destruct (_ && _); [discriminate | congruence].
Qed.

(** [strptime] raises [ValueError] or [TypeError], never [KeyError]. *)
Lemma strptime_raises v e :
  strptime v = Raise e -> e = ValueError \/ e = TypeError.
Proof.
  destruct v as [s | n | b]; simpl; [| intros [= <-]; by right ..].
  unfold Strptime.strptime.
  destruct (Strptime.format_regex _) as [| [[[[[[y m] d] H] M] s'] [| c rest]] l].
  - intros [= <-]; by left.
  - intros Hnew; left; by eapply datetime_new_raises.
  - intros [= <-]; by left.
Qed.

(** What [_extract_date] does, case by case. *)
Lemma extract_date_cases (fs : gmap Path node) image_path :
  _extract_date fs image_path
  = im ← Image_open fs image_path;
    match im_exif im !! 306 with
    | None => Ok ERROR_DATE
    | Some v => strptime v
    end.
Proof.
  unfold _extract_date. apply result_bind_ext; intros im.
  unfold Exif_getitem. destruct (im_exif im !! 306) as [v |]; [| reflexivity].
  cbn [mbind result_bind].
  destruct (strptime v) as [cdate | e] eqn:Hv; [reflexivity |].
  destruct (strptime_raises _ _ Hv) as [-> | ->]; reflexivity.
Qed.

Lemma extract_date_no_tag (fs : gmap Path node) image_path im :
  Image_open fs image_path = Ok im ->
  im_exif im !! 306 = None ->
  _extract_date fs image_path = Ok ERROR_DATE.
Proof.
  intros Hopen Htag. rewrite extract_date_cases, Hopen.
  cbn [mbind result_bind]. rewrite Htag. reflexivity.
Qed.

(** C6. A file that opens as an image and whose metadata dictionary has
    no tag 306 has the date 1900-01-01 00:00:00, and [_extract_date]
    returns it: it does not raise. *)
Theorem no_date_tag_sentinel (fs : gmap Path node) (image_path : Path) (im : Image) :
  Image_open fs image_path = Ok im ->
  im_exif im !! 306 = None ->
  _extract_date fs image_path = Ok (mkdatetime 1900 1 1 0 0 0).
Proof. exact (extract_date_no_tag fs image_path im). Qed.

Lemma no_date_tag_sentinel_witness :
  _extract_date Sample.fs Sample.b = Ok (mkdatetime 1900 1 1 0 0 0).
Proof.
  apply (no_date_tag_sentinel Sample.fs Sample.b Sample.b_jpg);
    vm_compute; reflexivity.
Defined.

(** C3, as the code has it. [_extract_date] returns the sentinel when the
    file opens as an image and has no tag 306, and the parsed date when the
    value of the tag parses. It raises in the other cases: what
    [PIL.Image.open] raises when the file does not open, [ValueError] when
    the value of the tag is text that does not parse, [TypeError] when it
    is not text. *)
Theorem extract_date_outcomes (fs : gmap Path node) (image_path : Path) :
  match Image_open fs image_path with
  | Raise e => _extract_date fs image_path = Raise e
  | Ok im =>
      match im_exif im !! 306 with
      | None => _extract_date fs image_path = Ok ERROR_DATE
      | Some (ExifStr s) =>
          match Strptime.strptime s with
          | Ok cdate => _extract_date fs image_path = Ok cdate
          | Raise _ => _extract_date fs image_path = Raise ValueError
          end
      | Some _ => _extract_date fs image_path = Raise TypeError
      end
  end.
Proof.
  rewrite extract_date_cases.
  destruct (Image_open fs image_path) as [im | e]; [| reflexivity].
  cbn [mbind result_bind].
  destruct (im_exif im !! 306) as [[s | n | b] |]; try reflexivity.
  destruct (Strptime.strptime s) as [cdate | e] eqn:Hs; [exact Hs |].
  destruct (strptime_raises (ExifStr s) e Hs) as [-> | ->]; [exact Hs |].
  unfold Strptime.strptime in Hs.
  destruct (Strptime.format_regex _) as [| [[[[[[y m] d] H] M] s'] [| c rest]] l];
    try discriminate.
  by apply datetime_new_raises in Hs.
Qed.

(** C3, as the claim has it, fails on the file [c.jpg] of the sample: it
    opens as an image, its tag 306 holds a date written with dashes, and
    [_extract_date] raises [ValueError]. *)
Lemma extract_date_raises_on_unparsable :
  Image_open Sample.fs Sample.c = Ok Sample.c_jpg
  /\ im_exif Sample.c_jpg !! 306 = Some (ExifStr "2020-01-01 10:00:00")
  /\ _extract_date Sample.fs Sample.c = Raise ValueError.
Proof. vm_compute. repeat split; reflexivity. Qed.

(** ** The shape of a digest and of a result line *)

Lemma hex_digit_lower n : 0 <= n < 16 -> is_lower_hex (SHA1.hex_digit n) = true.
Proof.
  intros Hn. destruct n as [| p | p]; [reflexivity | | lia].
  do 4 (try destruct p as [p | p |]); try reflexivity; lia.
Qed.

Lemma land_255_range x : 0 <= Z.land x 255 < 256.
Proof.
  change 255 with (Z.ones 8). rewrite Z.land_ones by lia.
  apply Z.mod_pos_bound. lia.
Qed.

Lemma hex_byte_lower b :
  0 <= b < 256 -> Forall (fun c => is_lower_hex c = true) (SHA1.hex_byte b).
Proof.
  intros Hb. unfold SHA1.hex_byte.
  repeat constructor; apply hex_digit_lower.
  - rewrite Z.shiftr_div_pow2 by lia. change (2 ^ 4) with 16.
    split; [apply Z.div_pos; lia | apply Z.div_lt_upper_bound; lia].
  - change 15 with (Z.ones 4). rewrite Z.land_ones by lia.
    apply Z.mod_pos_bound. lia.
Qed.

Lemma digest_bytes h :
  length (SHA1.digest h) = 20%nat /\ Forall (fun b => 0 <= b < 256) (SHA1.digest h).
Proof.
  unfold SHA1.digest. destruct (SHA1.final h) as [a b c d e].
  split; [reflexivity |].
  unfold SHA1.word_bytes. cbn [app].
  repeat constructor; apply land_255_range.
Qed.

Lemma hex_bytes_shape (l : list Z) :
  Forall (fun b => 0 <= b < 256) l ->
  length (flat_map SHA1.hex_byte l) = (2 * length l)%nat
  /\ Forall (fun c => is_lower_hex c = true) (flat_map SHA1.hex_byte l).
Proof.
  induction 1 as [| b l Hb Hl [IHlen IHhex]]; [by split |].
  cbn [flat_map]. split.
  - rewrite length_app, IHlen. simpl. lia.
  - apply Forall_app. split; [by apply hex_byte_lower | done].
Qed.

Lemma string_of_list_ascii_length (l : list ascii) :
  String.length (string_of_list_ascii l) = length l.
Proof. induction l as [| c l IH]; simpl; [done | by rewrite IH]. Qed.

(** [hexdigest] returns 40 characters of [0123456789abcdef]: the 160 bits
    of the digest, four to a character. *)
Lemma hexdigest_shape h :
  String.length (SHA1.hexdigest h) = 40%nat
  /\ Forall (fun c => is_lower_hex c = true) (list_ascii_of_string (SHA1.hexdigest h)).
Proof.
  unfold SHA1.hexdigest.
  destruct (digest_bytes h) as [Hlen Hbytes].
  destruct (hex_bytes_shape _ Hbytes) as [Hlen' Hhex].
  rewrite string_of_list_ascii_length, list_ascii_of_string_of_list_ascii.
  split; [lia | done].
Qed.

Lemma calc_checksum_shape (fs : gmap Path node) encode image_path block_size hash_str :
  _calc_checksum fs encode image_path block_size = Ok hash_str ->
  String.length hash_str = 40%nat
  /\ Forall (fun c => is_lower_hex c = true) (list_ascii_of_string hash_str).
Proof.
  rewrite calc_checksum_stream.
  destruct (Image_open fs image_path) as [im |]; [| discriminate].
  cbn [mbind result_bind].
  destruct (encode im (im_format im)) as [data |]; [| discriminate].
  cbn [mbind result_bind]. intros [= <-]. apply hexdigest_shape.
Qed.

(** C8. The line of a file that [process_file] handles without raising
    is the name of the file, the date as [str] prints it and the
    fingerprint, with [" -- "] between them; the date is what
    [_extract_date] returned, printed as [1900-01-01 00:00:00] when the
    file has no tag 306; the fingerprint is what [_calc_checksum] returned
    at its default block size, 40 characters of [0123456789abcdef]. *)
Theorem result_line_shape
  (fs : gmap Path node) (encode : Image -> string -> result (list byte))
  (file_path : Path) (line : string) :
  process_file fs encode file_path = Ok line ->
  exists cdate hash_str,
    _extract_date fs file_path = Ok cdate
    /\ _calc_checksum fs encode file_path 8192 = Ok hash_str
    /\ line = Path_name file_path +:+ " -- " +:+ datetime_str cdate +:+ " -- " +:+ hash_str
    /\ String.length hash_str = 40%nat
    /\ Forall (fun c => is_lower_hex c = true) (list_ascii_of_string hash_str)
    /\ (forall im, Image_open fs file_path = Ok im -> im_exif im !! 306 = None ->
        datetime_str cdate = "1900-01-01 00:00:00"%string).
Proof.
  unfold process_file.
  destruct (_calc_checksum fs encode file_path 8192) as [hash_str |] eqn:Hsum;
    [| discriminate].
  cbn [mbind result_bind].
  destruct (_extract_date fs file_path) as [cdate |] eqn:Hdate; [| discriminate].
  cbn [mbind result_bind]. intros [= <-].
  exists cdate, hash_str.
  destruct (calc_checksum_shape _ _ _ _ _ Hsum) as [Hlen Hhex].
  repeat split; try done.
  intros im Hopen Htag.
  rewrite (extract_date_no_tag fs file_path im Hopen Htag) in Hdate.
  injection Hdate as <-. reflexivity.
Qed.

Lemma result_line_shape_witness :
  exists cdate hash_str,
    _extract_date Sample.fs Sample.a = Ok cdate
    /\ _calc_checksum Sample.fs Sample.stored Sample.a 8192 = Ok hash_str
    /\ "a.jpg -- 2020-01-01 10:00:00 -- 658ce7d727ca5d58e1ff48393985a2ed6dcd1dbc"%string
       = Path_name Sample.a +:+ " -- " +:+ datetime_str cdate +:+ " -- " +:+ hash_str
    /\ String.length hash_str = 40%nat
    /\ Forall (fun c => is_lower_hex c = true) (list_ascii_of_string hash_str)
    /\ (forall im, Image_open Sample.fs Sample.a = Ok im -> im_exif im !! 306 = None ->
        datetime_str cdate = "1900-01-01 00:00:00"%string).
Proof.
  apply (result_line_shape Sample.fs Sample.stored Sample.a).
  vm_compute. reflexivity.
Defined.

(** ** The batch *)

Section Batch.

Variable fs : gmap Path node.
Variable encode : Image -> string -> result (list byte).
Variable processes : nat.

Local Abbreviation step := (pool_step fs encode processes).

Lemma pool_inv_init file_list :
  pool_inv fs encode processes file_list (pool_init file_list).
Proof.
  split; simpl.
  - by rewrite app_nil_r.
  - done.
  - lia.
Qed.

Lemma pool_inv_step file_list s s' :
  pool_inv fs encode processes file_list s -> step s s' ->
  pool_inv fs encode processes file_list s'.
Proof.
  intros [Htasks Hprinted Hbound] Hstep.
  destruct Hstep as [f q r d o Hfree | q r1 f r2 d o]; simpl in *.
  - split; simpl.
    + rewrite <- Htasks. solve_Permutation.
    + done.
    + rewrite length_app. simpl. lia.
  - split; simpl.
    + rewrite <- Htasks. solve_Permutation.
    + unfold lines_of in *. by rewrite bind_app, bind_singleton, Hprinted.
    + rewrite length_app in *. simpl in *. lia.
Qed.

Lemma pool_inv_reachable file_list s :
  rtc step (pool_init file_list) s -> pool_inv fs encode processes file_list s.
Proof.
  revert s. apply rtc_ind_r.
  - apply pool_inv_init.
  - intros s1 s2 _ Hstep IH. by eapply pool_inv_step.
Qed.

Lemma pool_step_left s s' : step s s' -> (pool_left s' < pool_left s)%nat.
Proof.
  intros [f q r d o Hfree | q r1 f r2 d o]; unfold pool_left; simpl;
    rewrite !length_app; simpl; lia.
Qed.


(** With one worker or more, a pool that is not idle can take a step,
    and so every state leads to an idle one. *)
Lemma pool_completes s :
  (1 <= processes)%nat -> exists s', rtc step s s' /\ pool_idle s'.
Proof.
  intros Hworkers.
  remember (pool_left s) as n eqn:Hn.
  revert s Hn. induction n as [n IH] using lt_wf_ind. intros s ->.
  destruct s as [q r d o]. destruct r as [| f r].
  - destruct q as [| f q].
    + exists (mkPool [] [] d o). split; [apply rtc_refl | done].
    + assert (step (mkPool (f :: q) [] d o) (mkPool q ([] ++ [f]) d o)) as Hstep
        by (apply step_claim; simpl; lia).
      destruct (IH _ (pool_step_left _ _ Hstep) _ eq_refl) as (s' & Hrun & Hidle).
      exists s'. split; [by eapply rtc_l | done].
  - assert (step (mkPool q ([] ++ f :: r) d o)
              (mkPool q ([] ++ r) (d ++ [f]) (o ++ deliver (process_file fs encode f))))
      as Hstep by apply step_finish.
    destruct (IH _ (pool_step_left _ _ Hstep) _ eq_refl) as (s' & Hrun & Hidle).
    exists s'. split; [by eapply rtc_l | done].
Qed.

(** The steps of the relation are the choices of the function. *)
Lemma pool_do_step c s s' : pool_do fs encode processes c s = Some s' -> step s s'.
Proof.
  destruct s as [q r d o]. destruct c as [| i]; simpl.
  - destruct q as [| f q]; [discriminate |].
    destruct (length r <? processes)%nat eqn:Hfree; [| discriminate].
    intros [= <-]. apply step_claim. by apply Nat.ltb_lt.
  - destruct (r !! i) as [f |] eqn:Hi; [| discriminate].
    intros [= <-]. rewrite delete_take_drop.
    rewrite <- (take_drop_middle r i f Hi) at 1. apply step_finish.
Qed.

Lemma pool_step_do s s' :
  step s s' -> exists c, pool_do fs encode processes c s = Some s'.
Proof.
  intros [f q r d o Hfree | q r1 f r2 d o].
  - exists Claim. simpl. by rewrite (proj2 (Nat.ltb_lt _ _) Hfree).
  - exists (Finish (length r1)). simpl.
    by rewrite list_lookup_middle, delete_middle.
Qed.

Lemma pool_exec_steps schedule s s' :
  pool_exec fs encode processes schedule s = Some s' -> rtc step s s'.
Proof.
  revert s. induction schedule as [| c schedule IH]; simpl; intros s.
  - intros [= <-]. apply rtc_refl.
  - destruct (pool_do fs encode processes c s) as [s1 |] eqn:Hdo; [| discriminate].
    intros Hexec. eapply rtc_l; [by eapply pool_do_step | by apply IH].
Qed.

Lemma pool_exec_run schedule file_list s :
  pool_exec fs encode processes schedule (pool_init file_list) = Some s ->
  queue s = [] -> running s = [] ->
  pool_run fs encode processes file_list s.
Proof. intros Hexec Hq Hr. split; [by eapply pool_exec_steps | done]. Qed.

Lemma pool_run_exists file_list :
  (1 <= processes)%nat -> exists s, pool_run fs encode processes file_list s.
Proof.
  intros Hworkers.
  destruct (pool_completes (pool_init file_list) Hworkers) as (s & Hrun & Hidle).
  by exists s.
Qed.

(** At the end of a run every task has finished, once. *)
Lemma pool_run_outcome file_list s :
  pool_run fs encode processes file_list s ->
  finished s ≡ₚ file_list /\ printed s = lines_of fs encode (finished s).
Proof.
  intros [Hrun [Hq Hr]].
  destruct (pool_inv_reachable _ _ Hrun) as [Htasks Hprinted _].
  rewrite Hq, Hr in Htasks. simpl in Htasks. done.
Qed.

Lemma lines_of_all_return (l : list Path) :
  Forall (fun f => is_ok (process_file fs encode f) = true) l ->
  process_file fs encode <$> l = Ok <$> lines_of fs encode l.
Proof.
  induction 1 as [| f l Hf _ IH]; [done |].
  unfold lines_of in *. rewrite bind_cons, fmap_app, !fmap_cons, IH.
  destruct (process_file fs encode f); [done | discriminate].
Qed.

End Batch.




(** C4, as the code has it. When the unit of every file of the list
    returns, then for every number of workers from one on the batch comes
    to its end, and at the end of every run the lines printed are the
    results of the files of the list, each file once, in the order in
    which the units finished: as many lines as files. *)
Theorem batch_complete_when_units_return
  (fs : gmap Path node) (encode : Image -> string -> result (list byte))
  (processes : nat) (file_list : list Path) :
  (1 <= processes)%nat ->
  Forall (fun f => is_ok (process_file fs encode f) = true) file_list ->
  (exists s, pool_run fs encode processes file_list s)
  /\ (forall s, pool_run fs encode processes file_list s ->
        finished s ≡ₚ file_list
        /\ process_file fs encode <$> finished s = Ok <$> printed s
        /\ length (printed s) = length file_list).
Proof.
  intros Hworkers Hreturn. split; [by apply pool_run_exists |].
  intros s Hrun. apply pool_run_outcome in Hrun as [Hperm Hprinted].
  assert (process_file fs encode <$> finished s = Ok <$> printed s) as Hlines.
  { rewrite Hprinted. apply lines_of_all_return. by rewrite Hperm. }
  split; [done |]. split; [done |].
  apply (f_equal length) in Hlines. rewrite !length_fmap in Hlines.
  by rewrite <- Hlines, Hperm.
Qed.

Lemma batch_complete_when_units_return_witness :
  (exists s, pool_run Sample.fs Sample.stored 2 [Sample.a; Sample.b] s)
  /\ (forall s, pool_run Sample.fs Sample.stored 2 [Sample.a; Sample.b] s ->
        finished s ≡ₚ [Sample.a; Sample.b]
        /\ process_file Sample.fs Sample.stored <$> finished s = Ok <$> printed s
        /\ length (printed s) = length [Sample.a; Sample.b]).
Proof.
  apply (batch_complete_when_units_return Sample.fs Sample.stored 2 [Sample.a; Sample.b]).
  - lia.
  - repeat constructor; vm_compute; reflexivity.
Defined.

(** C4, as the claim has it, fails on three files of which the second is
    not an image, on two workers: this run ends with two lines. *)
Lemma batch_with_corrupt_file_is_short :
  length [Sample.a; Sample.d; Sample.b] = 3%nat
  /\ exists s,
      pool_run Sample.fs Sample.stored 2 [Sample.a; Sample.d; Sample.b] s
      /\ finished s = [Sample.d; Sample.b; Sample.a]
      /\ printed s
         = ["b.jpg -- 1900-01-01 00:00:00 -- 658ce7d727ca5d58e1ff48393985a2ed6dcd1dbc";
            "a.jpg -- 2020-01-01 10:00:00 -- 658ce7d727ca5d58e1ff48393985a2ed6dcd1dbc"]%string.
Proof.
  split; [reflexivity |].
  destruct (pool_exec Sample.fs Sample.stored 2
              [Claim; Claim; Finish 1; Claim; Finish 1; Finish 0]
              (pool_init [Sample.a; Sample.d; Sample.b])) as [s |] eqn:Hexec;
    [| vm_compute in Hexec; discriminate Hexec].
  exists s. pose proof Hexec as Hs. vm_compute in Hs. injection Hs as <-.
  split; [| split; reflexivity].
  by apply (pool_exec_run _ _ _ _ _ _ Hexec).
Qed.

(** ** The command-line driver *)

Section Cli.

Variable fs : gmap Path node.
Variable encode : Image -> string -> result (list byte).
Variable glob_jpg rglob_jpg : Path -> list Path.
Variable cpu_count : option positive.

Local Abbreviation run := (cli fs encode glob_jpg rglob_jpg cpu_count).

(** The pool of a run of [cli], if it makes one, has the size that
    [multiprocessing.Pool()] chooses. *)
Lemma cli_pool_start src dest recurse tr out n :
  run src dest recurse tr out ->
  PoolStart n ∈ tr ->
  n = Pool_processes cpu_count.
Proof.
  intros Hrun Hin. destruct Hrun as [s file_list Hdir Hpool | | | |].
  - apply elem_of_cons in Hin as [Hin | Hin]; [discriminate |].
    apply elem_of_cons in Hin as [Hin | Hin]; [by injection Hin |].
    apply elem_of_app in Hin as [Hin | Hin].
    + apply list_elem_of_fmap in Hin as (line & Hline & _). discriminate.
    + apply list_elem_of_singleton in Hin. discriminate.
  - apply list_elem_of_singleton in Hin. discriminate.
  - by apply not_elem_of_nil in Hin.
  - by apply not_elem_of_nil in Hin.
  - by apply not_elem_of_nil in Hin.
Qed.

(** On a regular file [cli] has one run, and [process_file] decides it. *)
Lemma cli_regular_file src dest recurse f tr out :
  fs !! src = Some (Regular f) ->
  run src dest recurse tr out ->
  match process_file fs encode src with
  | Ok line => tr = [Print line] /\ out = None
  | Raise e => tr = [] /\ out = Some e
  end.
Proof.
  intros Hfile Hrun.
  destruct Hrun as [s file_list Hdir Hpool | f' line Hf Hline | f' e Hf He | Hf | Hf];
    try congruence.
  - by rewrite Hline.
  - by rewrite He.
Qed.

Lemma cli_regular_file_runs src dest recurse f :
  fs !! src = Some (Regular f) ->
  exists tr out, run src dest recurse tr out.
Proof.
  intros Hfile. destruct (process_file fs encode src) as [line | e] eqn:Hline.
  - exists [Print line], None. by eapply cli_file_return.
  - exists [], (Some e). by eapply cli_file_raise.
Qed.

End Cli.

(** A run of [cli] on the directory of the sample, on a host of four
    processing units: the four tasks are claimed, then finish in the order
    [d.jpg], [c.jpg], [b.jpg], [a.jpg]. *)
Lemma sample_directory_run :
  cli Sample.fs Sample.stored Sample.glob_jpg Sample.glob_jpg (Some 4%positive)
    Sample.photos "." false
    [Print "COUNT: 4"; PoolStart 4;
     Print "b.jpg -- 1900-01-01 00:00:00 -- 658ce7d727ca5d58e1ff48393985a2ed6dcd1dbc";
     Print "a.jpg -- 2020-01-01 10:00:00 -- 658ce7d727ca5d58e1ff48393985a2ed6dcd1dbc";
     PoolJoin]
    None.
Proof.
  pose (s := mkPool [] [] [Sample.d; Sample.c; Sample.b; Sample.a]
               (lines_of Sample.fs Sample.stored [Sample.d; Sample.c; Sample.b; Sample.a])).
  assert (pool_run Sample.fs Sample.stored 4 [Sample.a; Sample.b; Sample.c; Sample.d] s)
    as Hpool.
  { apply (pool_exec_run _ _ _
             [Claim; Claim; Claim; Claim; Finish 3; Finish 2; Finish 1; Finish 0]);
      [vm_compute; reflexivity | reflexivity | reflexivity]. }
  pose proof (cli_dir Sample.fs Sample.stored Sample.glob_jpg Sample.glob_jpg
                (Some 4%positive) Sample.photos "." false s) as Hcli.
  cbv zeta in Hcli.
  assert (Sample.fs !! Sample.photos = Some Directory) as Hdir
    by (vm_compute; reflexivity).
  specialize (Hcli Hdir Hpool).
  vm_compute in Hcli. exact Hcli.
Defined.

(** C7, as the code has it. [cli] takes no pool size from its caller: the
    pool of a run has as many workers as the host has processing units,
    one when their number is not known, whatever the arguments are; and a
    pool of that size never has more units running than that. *)
Theorem pool_size_is_cpu_count
  (fs : gmap Path node) (encode : Image -> string -> result (list byte))
  (glob_jpg rglob_jpg : Path -> list Path) (cpu_count : option positive)
  (src : Path) (dest : string) (recurse : bool)
  (tr : list event) (out : option exn) (n : nat) :
  cli fs encode glob_jpg rglob_jpg cpu_count src dest recurse tr out ->
  PoolStart n ∈ tr ->
  n = match cpu_count with Some units => Pos.to_nat units | None => 1%nat end
  /\ forall file_list s,
      rtc (pool_step fs encode n) (pool_init file_list) s ->
      (length (running s) <= n)%nat.
Proof.
  intros Hrun Hin. split.
  - exact (cli_pool_start _ _ _ _ _ _ _ _ _ _ _ Hrun Hin).
  - intros file_list s Hreach.
    by destruct (pool_inv_reachable _ _ _ _ _ Hreach).
Qed.

Lemma pool_size_is_cpu_count_witness :
  4%nat = Pos.to_nat 4
  /\ forall file_list s,
      rtc (pool_step Sample.fs Sample.stored 4) (pool_init file_list) s ->
      (length (running s) <= 4)%nat.
Proof.
  apply (pool_size_is_cpu_count Sample.fs Sample.stored Sample.glob_jpg Sample.glob_jpg
           (Some 4%positive) Sample.photos "." false _ None 4 sample_directory_run).
  apply list_elem_of_further, list_elem_of_here.
Defined.

(** C7, as the claim has it, fails on a host of four processing units: a
    pool of two workers is a size that a caller may want, and no arguments
    of [cli] give a run with such a pool. *)
Lemma pool_size_not_from_caller :
  exists n : nat,
    (1 <= n)%nat
    /\ forall src dest recurse tr out,
        cli Sample.fs Sample.stored Sample.glob_jpg Sample.glob_jpg (Some 4%positive)
          src dest recurse tr out ->
        PoolStart n ∉ tr.
Proof.
  exists 2%nat. split; [lia |].
  intros src dest recurse tr out Hrun Hin.
  pose proof (cli_pool_start _ _ _ _ _ _ _ _ _ _ _ Hrun Hin) as Hn.
  vm_compute in Hn. discriminate Hn.
Qed.

(** C9, as the code has it. When the path is a regular file, [cli] makes
    no pool and prints no count: it has a run, and every run is that of
    [process_file] on the file, in the calling process. When
    [process_file] returns, the run prints its line and nothing else; when
    it raises, the run prints nothing and ends with the exception. *)
Theorem single_file_run
  (fs : gmap Path node) (encode : Image -> string -> result (list byte))
  (glob_jpg rglob_jpg : Path -> list Path) (cpu_count : option positive)
  (src : Path) (dest : string) (recurse : bool) (f : file) :
  fs !! src = Some (Regular f) ->
  (exists tr out, cli fs encode glob_jpg rglob_jpg cpu_count src dest recurse tr out)
  /\ forall tr out,
      cli fs encode glob_jpg rglob_jpg cpu_count src dest recurse tr out ->
      (forall n, PoolStart n ∉ tr)
      /\ match process_file fs encode src with
         | Ok line => tr = [Print line] /\ out = None
         | Raise e => tr = [] /\ out = Some e
         end.
Proof.
  intros Hfile. split; [by eapply cli_regular_file_runs |].
  intros tr out Hrun.
  pose proof (cli_regular_file _ _ _ _ _ _ _ _ _ _ _ Hfile Hrun) as Hshape.
  split; [| exact Hshape].
  intros n Hin.
  destruct (process_file fs encode src) as [line | e]; destruct Hshape as [-> _].
  - apply list_elem_of_singleton in Hin. discriminate.
  - by apply not_elem_of_nil in Hin.
Qed.

Lemma single_file_run_witness :
  (exists tr out,
      cli Sample.fs Sample.stored Sample.glob_jpg Sample.glob_jpg (Some 4%positive)
        Sample.a "." false tr out)
  /\ forall tr out,
      cli Sample.fs Sample.stored Sample.glob_jpg Sample.glob_jpg (Some 4%positive)
        Sample.a "." false tr out ->
      (forall n, PoolStart n ∉ tr)
      /\ match process_file Sample.fs Sample.stored Sample.a with
         | Ok line => tr = [Print line] /\ out = None
         | Raise e => tr = [] /\ out = Some e
         end.
Proof.
  apply (single_file_run Sample.fs Sample.stored Sample.glob_jpg Sample.glob_jpg
           (Some 4%positive) Sample.a "." false (mkfile 1577872800 (Some Sample.a_jpg))).
  vm_compute. reflexivity.
Defined.

(** C9, as the claim has it, fails on [d.jpg] of the sample, a regular
    file that is not an image: the run of [cli] on it ends with the
    exception of [PIL.Image.open], and it has printed no line. *)
Lemma single_file_run_without_line :
  Sample.fs !! Sample.d = Some (Regular (mkfile 1600000002 None))
  /\ cli Sample.fs Sample.stored Sample.glob_jpg Sample.glob_jpg (Some 4%positive)
       Sample.d "." false [] (Some OSError)
  /\ forall tr out,
      cli Sample.fs Sample.stored Sample.glob_jpg Sample.glob_jpg (Some 4%positive)
        Sample.d "." false tr out ->
      tr = [].
Proof.
  assert (Sample.fs !! Sample.d = Some (Regular (mkfile 1600000002 None))) as Hfile
    by (vm_compute; reflexivity).
  assert (process_file Sample.fs Sample.stored Sample.d = Raise OSError) as Hraise
    by (vm_compute; reflexivity).
  split; [exact Hfile |]. split.
  - by eapply cli_file_raise.
  - intros tr out Hrun.
    pose proof (cli_regular_file _ _ _ _ _ _ _ _ _ _ _ Hfile Hrun) as Hshape.
    rewrite Hraise in Hshape. by destruct Hshape.
Qed.

(** * Further properties

    ** The reads of the chunk loop *)












Example chunk_reads_abcde :
  chunk_reads 2 (mkBytesIO (list_byte_of_string "abcde") 0)
  = [list_byte_of_string "ab"; list_byte_of_string "cd"; list_byte_of_string "e"].
Proof. vm_compute. reflexivity. Qed.

(** ** The dates of [_extract_date] and the layout of a result line *)

Lemma string_app_length (s1 s2 : string) :
  String.length (s1 +:+ s2) = (String.length s1 + String.length s2)%nat.
Proof. induction s1 as [| c s1 IH]; simpl; [done | by rewrite IH]. Qed.

Lemma list_ascii_of_string_app (s1 s2 : string) :
  list_ascii_of_string (s1 +:+ s2)
  = list_ascii_of_string s1 ++ list_ascii_of_string s2.
Proof. induction s1 as [| c s1 IH]; simpl; [done | by rewrite IH]. Qed.

Lemma substring_app_l (s1 s2 : string) :
  substring 0 (String.length s1) (s1 +:+ s2) = s1.
Proof.
  induction s1 as [| c s1 IH]; simpl; [by destruct s2 | by rewrite IH].
Qed.

Lemma substring_app_r (s1 s2 : string) n m :
  substring (String.length s1 + n) m (s1 +:+ s2) = substring n m s2.
Proof. induction s1 as [| c s1 IH]; simpl; done. Qed.

Lemma zfill_exact_below (w : nat) (bound n : Z) :
  forallb (fun k => zfill_exact w (Z.of_nat k)) (seq 0 (Z.to_nat bound)) = true ->
  0 <= n < bound ->
  zfill_exact w n = true.
Proof.
  intros Hall Hn. rewrite forallb_forall in Hall.
  rewrite <- (Z2Nat.id n) by lia. apply Hall, in_seq. lia.
Qed.

Lemma zfill_4_exact n : 0 <= n <= 9999 -> zfill_exact 4 n = true.
Proof.
  intros Hn. apply (zfill_exact_below 4 10000); [vm_compute; reflexivity | lia].
Qed.

Lemma zfill_2_exact n : 0 <= n <= 99 -> zfill_exact 2 n = true.
Proof.
  intros Hn. apply (zfill_exact_below 2 100); [vm_compute; reflexivity | lia].
Qed.

Lemma zfill_exact_length w n :
  zfill_exact w n = true -> String.length (zfill w n) = w.
Proof.
  unfold zfill_exact. intros Hok.
  apply andb_true_iff in Hok as [Hok _]. apply andb_true_iff in Hok as [Hlen _].
  apply Nat.eqb_eq in Hlen.
  by rewrite <- (string_of_list_ascii_of_string (zfill w n)),
    string_of_list_ascii_length.
Qed.

Lemma datetime_valid_fields d :
  datetime_valid d = true ->
  1 <= year d <= 9999 /\ 1 <= month d <= 12
  /\ 1 <= day d <= days_in_month (year d) (month d)
  /\ 0 <= hour d <= 23 /\ 0 <= minute d <= 59 /\ 0 <= second d <= 59.
Proof.
  unfold datetime_valid. rewrite !andb_true_iff, !Z.leb_le. tauto.
Qed.

Lemma days_in_month_le y m : days_in_month y m <= 31.
Proof.
  unfold days_in_month.
  destruct (m =? 2); [destruct (is_leap y); lia |].
  destruct (_ || _); lia.
Qed.

Lemma datetime_new_valid y m d H M s dt :
  datetime_new y m d H M s = Ok dt ->
  dt = mkdatetime y m d H M s /\ datetime_valid dt = true.
Proof.
  unfold datetime_new.
  destruct (_ && _) eqn:Hchecks; [| discriminate].
  intros [= <-]. split; [reflexivity | exact Hchecks].
Qed.

Lemma strptime_valid s d : Strptime.strptime s = Ok d -> datetime_valid d = true.
Proof.
  unfold Strptime.strptime.
  destruct (Strptime.format_regex _) as [| [[[[[[y m] dd] H] M] s'] [| c rest]] l];
    try discriminate.
  intros Hnew. by apply datetime_new_valid in Hnew as [_ Hvalid].
Qed.

Lemma datetime_str_length d :
  datetime_valid d = true -> String.length (datetime_str d) = 19%nat.
Proof.
  intros Hvalid. apply datetime_valid_fields in Hvalid.
  pose proof (days_in_month_le (year d) (month d)).
  unfold datetime_str. rewrite !string_app_length.
  rewrite (zfill_exact_length 4 (year d)) by (apply zfill_4_exact; lia).
  rewrite !(zfill_exact_length 2) by (apply zfill_2_exact; lia).
  reflexivity.
Qed.

Lemma extract_date_valid (fs : gmap Path node) image_path d :
  _extract_date fs image_path = Ok d -> datetime_valid d = true.
Proof.
  rewrite extract_date_cases.
  destruct (Image_open fs image_path) as [im |]; [| discriminate].
  cbn [mbind result_bind].
  destruct (im_exif im !! 306) as [[s | n | b] |]; simpl; try discriminate.
  - apply strptime_valid.
  - intros [= <-]. reflexivity.
Qed.

(** X2. Whatever [_extract_date] returns is a date and time of the
    calendar, the sentinel included: the year is from 1 to 9999, the day
    is one of its month, the time is below 24:00:00; and [str] prints it on
    19 characters. *)
Theorem extract_date_is_date (fs : gmap Path node) (image_path : Path) (d : datetime) :
  _extract_date fs image_path = Ok d ->
  (1 <= year d <= 9999 /\ 1 <= month d <= 12
   /\ 1 <= day d <= days_in_month (year d) (month d)
   /\ 0 <= hour d <= 23 /\ 0 <= minute d <= 59 /\ 0 <= second d <= 59)
  /\ String.length (datetime_str d) = 19%nat.
Proof.
  intros Hdate. apply extract_date_valid in Hdate.
  split; [by apply datetime_valid_fields | by apply datetime_str_length].
Qed.

Lemma extract_date_is_date_witness :
  (1 <= 2020 <= 9999 /\ 1 <= 1 <= 12 /\ 1 <= 1 <= days_in_month 2020 1
   /\ 0 <= 10 <= 23 /\ 0 <= 0 <= 59 /\ 0 <= 0 <= 59)
  /\ String.length (datetime_str (mkdatetime 2020 1 1 10 0 0)) = 19%nat.
Proof.
  apply (extract_date_is_date Sample.fs Sample.a (mkdatetime 2020 1 1 10 0 0)).
  vm_compute. reflexivity.
Defined.

Lemma substring_all (s : string) : substring 0 (String.length s) s = s.
Proof. induction s as [| c s IH]; simpl; [done | by rewrite IH]. Qed.

(** Where the parts of [name -- date -- hash] are. *)
Lemma line_parts (name date hash_str : string) :
  let line := name +:+ " -- " +:+ date +:+ " -- " +:+ hash_str in
  String.length line
  = (String.length name + (4 + (String.length date + (4 + String.length hash_str))))%nat
  /\ substring 0 (String.length name) line = name
  /\ substring (String.length name + 0) 4 line = " -- "%string
  /\ substring (String.length name + (4 + 0)) (String.length date) line = date
  /\ substring (String.length name + (4 + (String.length date + 0))) 4 line
     = " -- "%string
  /\ substring (String.length name + (4 + (String.length date + (4 + 0))))
       (String.length hash_str) line = hash_str.
Proof.
  cbv zeta. split; [by rewrite !string_app_length |].
  split; [apply substring_app_l |].
  rewrite !substring_app_r.
  split; [apply (substring_app_l " -- ") |].
  rewrite !(substring_app_r " -- "), !substring_app_r.
  split; [apply substring_app_l |].
  split; [apply (substring_app_l " -- ") |].
  rewrite !(substring_app_r " -- "). apply substring_all.
Qed.

(** X3. A result line has the length of the name of the file and 67
    characters more: after the name come [" -- "], the 19 characters of
    the date, [" -- "] and the 40 characters of the fingerprint, so the
    date and the fingerprint are read at fixed places from the end of the
    line, whatever the name holds. *)
Theorem result_line_layout
  (fs : gmap Path node) (encode : Image -> string -> result (list byte))
  (file_path : Path) (line : string) :
  process_file fs encode file_path = Ok line ->
  exists cdate hash_str,
    _extract_date fs file_path = Ok cdate
    /\ _calc_checksum fs encode file_path 8192 = Ok hash_str
    /\ String.length line = (String.length (Path_name file_path) + 67)%nat
    /\ substring 0 (String.length (Path_name file_path)) line = Path_name file_path
    /\ substring (String.length (Path_name file_path)) 4 line = " -- "%string
    /\ substring (String.length (Path_name file_path) + 4) 19 line = datetime_str cdate
    /\ substring (String.length (Path_name file_path) + 23) 4 line = " -- "%string
    /\ substring (String.length (Path_name file_path) + 27) 40 line = hash_str.
Proof.
  unfold process_file.
  destruct (_calc_checksum fs encode file_path 8192) as [hash_str |] eqn:Hsum;
    [| discriminate].
  cbn [mbind result_bind].
  destruct (_extract_date fs file_path) as [cdate |] eqn:Hdate; [| discriminate].
  cbn [mbind result_bind]. intros [= <-].
  exists cdate, hash_str. split; [done |]. split; [done |].
  destruct (calc_checksum_shape _ _ _ _ _ Hsum) as [Hlen40 _].
  pose proof (datetime_str_length _ (extract_date_valid _ _ _ Hdate)) as Hlen19.
  pose proof (line_parts (Path_name file_path) (datetime_str cdate) hash_str) as Hparts.
  cbv zeta in Hparts. rewrite Hlen19, Hlen40, Nat.add_0_r in Hparts.
  exact Hparts.
Qed.

Lemma result_line_layout_witness :
  exists cdate hash_str,
    _extract_date Sample.fs Sample.a = Ok cdate
    /\ _calc_checksum Sample.fs Sample.stored Sample.a 8192 = Ok hash_str
    /\ String.length
         "a.jpg -- 2020-01-01 10:00:00 -- 658ce7d727ca5d58e1ff48393985a2ed6dcd1dbc"
       = (String.length (Path_name Sample.a) + 67)%nat
    /\ substring 0 (String.length (Path_name Sample.a))
         "a.jpg -- 2020-01-01 10:00:00 -- 658ce7d727ca5d58e1ff48393985a2ed6dcd1dbc"
       = Path_name Sample.a
    /\ substring (String.length (Path_name Sample.a)) 4
         "a.jpg -- 2020-01-01 10:00:00 -- 658ce7d727ca5d58e1ff48393985a2ed6dcd1dbc"
       = " -- "%string
    /\ substring (String.length (Path_name Sample.a) + 4) 19
         "a.jpg -- 2020-01-01 10:00:00 -- 658ce7d727ca5d58e1ff48393985a2ed6dcd1dbc"
       = datetime_str cdate
    /\ substring (String.length (Path_name Sample.a) + 23) 4
         "a.jpg -- 2020-01-01 10:00:00 -- 658ce7d727ca5d58e1ff48393985a2ed6dcd1dbc"
       = " -- "%string
    /\ substring (String.length (Path_name Sample.a) + 27) 40
         "a.jpg -- 2020-01-01 10:00:00 -- 658ce7d727ca5d58e1ff48393985a2ed6dcd1dbc"
       = hash_str.
Proof.
  apply (result_line_layout Sample.fs Sample.stored Sample.a).
  vm_compute. reflexivity.
Defined.

(** ** Dates in the form of the format are read back *)

Lemma head_bind {A B : Type} (l : list A) (f : A -> list B) x y :
  head l = Some x -> head (f x) = Some y -> head (l ≫= f) = Some y.
Proof.
  destruct l as [| x' l]; [discriminate |]. intros [= ->] Hy.
  rewrite bind_cons. by destruct (f x).
Qed.

Ltac each_small_Z n :=
  destruct n as [| n | n]; try lia;
  do 6 (try destruct n as [n | n |]); try lia.

Lemma zfill_exact_int w n :
  zfill_exact w n = true -> Strptime.int (list_ascii_of_string (zfill w n)) = n.
Proof.
  unfold zfill_exact. intros Hok.
  apply andb_true_iff in Hok as [_ Hint]. by apply Z.eqb_eq in Hint.
Qed.

Lemma field_Y y rest :
  0 <= y <= 9999 ->
  Strptime.re_Y (list_ascii_of_string (zfill 4 y) ++ rest)
  = [(list_ascii_of_string (zfill 4 y), rest)].
Proof.
  intros Hy. pose proof (zfill_4_exact y Hy) as Hok. unfold zfill_exact in Hok.
  apply andb_true_iff in Hok as [Hok _]. apply andb_true_iff in Hok as [Hlen Hdigits].
  apply Nat.eqb_eq in Hlen.
  destruct (list_ascii_of_string (zfill 4 y)) as [| a [| b [| c [| d [| e l]]]]];
    try discriminate Hlen.
  cbn [forallb] in Hdigits. rewrite !andb_true_iff in Hdigits.
  destruct Hdigits as (Ha & Hb & Hc & Hd & _).
  unfold Strptime.re_Y, Strptime.cat, Strptime.digit, Strptime.one.
  cbn [app]. rewrite Ha. cbn [mbind list_bind app]. rewrite Hb.
  cbn [mbind list_bind app]. rewrite Hc. cbn [mbind list_bind app]. rewrite Hd.
  reflexivity.
Qed.

Lemma field_m n rest :
  1 <= n <= 12 ->
  head (Strptime.re_m (list_ascii_of_string (zfill 2 n) ++ ":"%char :: rest))
  = Some (list_ascii_of_string (zfill 2 n), ":"%char :: rest).
Proof. intros Hn. each_small_Z n; vm_compute; reflexivity. Qed.

Lemma field_d n rest :
  1 <= n <= 31 ->
  head (Strptime.re_d (list_ascii_of_string (zfill 2 n) ++ " "%char :: rest))
  = Some (list_ascii_of_string (zfill 2 n), " "%char :: rest).
Proof. intros Hn. each_small_Z n; vm_compute; reflexivity. Qed.

Lemma field_blank n rest :
  0 <= n <= 23 ->
  head (Strptime.spaces (" "%char :: list_ascii_of_string (zfill 2 n) ++ rest))
  = Some ([" "%char], list_ascii_of_string (zfill 2 n) ++ rest).
Proof. intros Hn. each_small_Z n; vm_compute; reflexivity. Qed.

Lemma field_H n rest :
  0 <= n <= 23 ->
  head (Strptime.re_H (list_ascii_of_string (zfill 2 n) ++ ":"%char :: rest))
  = Some (list_ascii_of_string (zfill 2 n), ":"%char :: rest).
Proof. intros Hn. each_small_Z n; vm_compute; reflexivity. Qed.

Lemma field_M n rest :
  0 <= n <= 59 ->
  head (Strptime.re_M (list_ascii_of_string (zfill 2 n) ++ ":"%char :: rest))
  = Some (list_ascii_of_string (zfill 2 n), ":"%char :: rest).
Proof. intros Hn. each_small_Z n; vm_compute; reflexivity. Qed.

Lemma field_S n :
  0 <= n <= 59 ->
  head (Strptime.re_S (list_ascii_of_string (zfill 2 n)))
  = Some (list_ascii_of_string (zfill 2 n), []).
Proof. intros Hn. each_small_Z n; vm_compute; reflexivity. Qed.

Lemma format_regex_exif_text d :
  datetime_valid d = true ->
  head (Strptime.format_regex (list_ascii_of_string (exif_text d)))
  = Some ((year d, month d, day d, hour d, minute d, second d), []).
Proof.
  intros Hvalid. apply datetime_valid_fields in Hvalid.
  destruct Hvalid as (Hy & Hm & Hd & HH & HM & HS).
  pose proof (days_in_month_le (year d) (month d)) as Hdays.
  unfold exif_text. rewrite !list_ascii_of_string_app.
  change (list_ascii_of_string ":") with [":"%char].
  change (list_ascii_of_string " ") with [" "%char].
  cbn [app]. unfold Strptime.format_regex.
  eapply head_bind; [rewrite field_Y by lia; reflexivity | cbv beta iota].
  eapply head_bind; [reflexivity | cbv beta iota].
  eapply head_bind; [apply field_m; lia | cbv beta iota].
  eapply head_bind; [reflexivity | cbv beta iota].
  eapply head_bind; [apply field_d; lia | cbv beta iota].
  eapply head_bind; [apply field_blank; lia | cbv beta iota].
  eapply head_bind; [apply field_H; lia | cbv beta iota].
  eapply head_bind; [reflexivity | cbv beta iota].
  eapply head_bind; [apply field_M; lia | cbv beta iota].
  eapply head_bind; [reflexivity | cbv beta iota].
  eapply head_bind; [apply field_S; lia | cbv beta iota].
  rewrite (zfill_exact_int 4 (year d)) by (apply zfill_4_exact; lia).
  rewrite !(zfill_exact_int 2) by (apply zfill_2_exact; lia).
  reflexivity.
Qed.

Lemma strptime_exif_text d :
  datetime_valid d = true -> Strptime.strptime (exif_text d) = Ok d.
Proof.
  intros Hvalid. pose proof (format_regex_exif_text d Hvalid) as Hhead.
  unfold Strptime.strptime.
  destruct (Strptime.format_regex _) as [| x l]; [discriminate |].
  injection Hhead as ->.
  unfold datetime_new. unfold datetime_valid in Hvalid. rewrite Hvalid.
  by destruct d.
Qed.

(** X4. A file whose tag 306 holds a date and time of the calendar in
    the form [YYYY:MM:DD HH:MM:SS], each field on its full width, has that
    date and time as the result of [_extract_date]. *)
Theorem canonical_tag_is_read_back
  (fs : gmap Path node) (image_path : Path) (im : Image) (d : datetime) :
  Image_open fs image_path = Ok im ->
  datetime_valid d = true ->
  im_exif im !! 306 = Some (ExifStr (exif_text d)) ->
  _extract_date fs image_path = Ok d.
Proof.
  intros Hopen Hvalid Htag. rewrite extract_date_cases, Hopen.
  cbn [mbind result_bind]. rewrite Htag. by apply strptime_exif_text.
Qed.

Lemma canonical_tag_is_read_back_witness :
  _extract_date Sample.fs Sample.a = Ok (mkdatetime 2020 1 1 10 0 0).
Proof.
  apply (canonical_tag_is_read_back Sample.fs Sample.a Sample.a_jpg
           (mkdatetime 2020 1 1 10 0 0)); vm_compute; reflexivity.
Defined.

(** ** The outcomes of [process_file] *)

(** The line of a file of a given name, date and encoded payload. *)
Lemma process_file_cases
  (fs : gmap Path node) (encode : Image -> string -> result (list byte)) file_path :
  process_file fs encode file_path
  = im ← Image_open fs file_path;
    data ← encode im (im_format im);
    cdate ← match im_exif im !! 306 with
            | None => Ok ERROR_DATE
            | Some v => strptime v
            end;
    Ok (Path_name file_path +:+ " -- " +:+ datetime_str cdate +:+ " -- "
        +:+ SHA1.sha1 data).
Proof.
  unfold process_file.
  rewrite calc_checksum_nonzero by discriminate. rewrite extract_date_cases.
  destruct (Image_open fs file_path) as [im |]; [| reflexivity].
  cbn [mbind result_bind].
  destruct (encode im (im_format im)) as [data |]; reflexivity.
Qed.

(** X5. What [process_file] does with a file, in the order in which it
    fails: it raises what [PIL.Image.open] raises; else what the encoder
    raises; else [TypeError] when tag 306 is not text and [ValueError] when
    it is text that does not parse; else it returns the name, the date (the
    sentinel when there is no tag 306) and the SHA-1 digest of all that the
    encoder wrote. *)
Theorem process_file_outcomes
  (fs : gmap Path node) (encode : Image -> string -> result (list byte))
  (file_path : Path) :
  process_file fs encode file_path
  = match Image_open fs file_path with
    | Raise e => Raise e
    | Ok im =>
        match encode im (im_format im) with
        | Raise e => Raise e
        | Ok data =>
            let line cdate :=
              Path_name file_path +:+ " -- " +:+ datetime_str cdate +:+ " -- "
              +:+ SHA1.sha1 data in
            match im_exif im !! 306 with
            | None => Ok (line ERROR_DATE)
            | Some (ExifStr s) =>
                match Strptime.strptime s with
                | Ok cdate => Ok (line cdate)
                | Raise _ => Raise ValueError
                end
            | Some _ => Raise TypeError
            end
        end
    end.
Proof.
  rewrite process_file_cases.
  destruct (Image_open fs file_path) as [im |]; [| reflexivity].
  cbn [mbind result_bind].
  destruct (encode im (im_format im)) as [data |]; [| reflexivity].
  cbn [mbind result_bind].
  destruct (im_exif im !! 306) as [[s | n | b] |]; try reflexivity.
  cbn [strptime].
  destruct (Strptime.strptime s) as [cdate | e] eqn:Hs; [reflexivity |].
  cbn [mbind result_bind].
  destruct (strptime_raises (ExifStr s) e Hs) as [-> | ->]; [reflexivity |].
  unfold Strptime.strptime in Hs.
  destruct (Strptime.format_regex _) as [| [[[[[[y m] d] H] M] s'] [| c rest]] l];
    try discriminate.
  by apply datetime_new_raises in Hs.
Qed.

(** X6. Two files that open as images with the same pixel payload, the
    same format and the same value of tag 306, or none in both, have the
    same outcome of [process_file] but for their names: both raise the
    same exception, or both return a line, and the two lines are the same
    after the name. The rest of the metadata, the directories of the
    files, their modification times and the other files do not count. The
    encoder is taken to write from the pixel payload and the format. *)
Theorem duplicates_have_the_same_line
  (fs1 fs2 : gmap Path node) (encode : Image -> string -> result (list byte))
  (p1 p2 : Path) (im1 im2 : Image) :
  (forall x y format, im_pixels x = im_pixels y -> encode x format = encode y format) ->
  Image_open fs1 p1 = Ok im1 ->
  Image_open fs2 p2 = Ok im2 ->
  im_pixels im1 = im_pixels im2 ->
  im_format im1 = im_format im2 ->
  im_exif im1 !! 306 = im_exif im2 !! 306 ->
  match process_file fs1 encode p1, process_file fs2 encode p2 with
  | Ok line1, Ok line2 =>
      exists rest, line1 = Path_name p1 +:+ rest /\ line2 = Path_name p2 +:+ rest
  | Raise e1, Raise e2 => e1 = e2
  | _, _ => False
  end.
Proof.
  intros Hcodec Ho1 Ho2 Hpix Hfmt Htag.
  rewrite !process_file_cases, Ho1, Ho2. cbn [mbind result_bind].
  rewrite <- Hfmt, <- Htag, <- (Hcodec im1 im2 _ Hpix).
  destruct (encode im1 (im_format im1)) as [data |]; [| reflexivity].
  cbn [mbind result_bind].
  destruct (match im_exif im1 !! 306 with
            | Some v => strptime v
            | None => Ok ERROR_DATE
            end) as [cdate |]; [| reflexivity].
  cbn [mbind result_bind]. by eexists.
Qed.

Lemma duplicates_have_the_same_line_witness :
  match process_file Sample.fs Sample.stored Sample.a,
        process_file Archive.fs Sample.stored Archive.copy with
  | Ok line1, Ok line2 =>
      exists rest, line1 = Path_name Sample.a +:+ rest
                   /\ line2 = Path_name Archive.copy +:+ rest
  | Raise e1, Raise e2 => e1 = e2
  | _, _ => False
  end.
Proof.
  apply (duplicates_have_the_same_line Sample.fs Archive.fs Sample.stored
           Sample.a Archive.copy Sample.a_jpg Archive.copy_jpg).
  - intros x y format Hxy. unfold Sample.stored. by rewrite Hxy.
  - vm_compute; reflexivity.
  - vm_compute; reflexivity.
  - reflexivity.
  - reflexivity.
  - vm_compute; reflexivity.
Defined.

(** ** The runs of [cli] *)

Lemma Pool_processes_pos cpu_count : (1 <= Pool_processes cpu_count)%nat.
Proof. unfold Pool_processes. destruct cpu_count; lia. Qed.


Section CliRuns.

Variable fs : gmap Path node.
Variable encode : Image -> string -> result (list byte).
Variable glob_jpg rglob_jpg : Path -> list Path.
Variable cpu_count : option positive.

Local Abbreviation run := (cli fs encode glob_jpg rglob_jpg cpu_count).
Local Abbreviation listing src recurse :=
  (if recurse : bool then rglob_jpg src else glob_jpg src).

Lemma cli_directory src dest recurse tr out :
  fs !! src = Some Directory ->
  run src dest recurse tr out ->
  out = None
  /\ exists lines,
      tr = Print (count_line (listing src recurse))
             :: PoolStart (Pool_processes cpu_count) :: map Print lines ++ [PoolJoin]
      /\ lines ≡ₚ lines_of fs encode (listing src recurse).
Proof.
  intros Hdir Hrun.
  destruct Hrun as [s file_list Hd Hpool | | | |]; try congruence.
  split; [reflexivity |]. exists (printed s). split; [reflexivity |].
  apply pool_run_outcome in Hpool as [Hperm ->].
  unfold lines_of. by rewrite Hperm.
Qed.

Lemma cli_directory_runs src dest recurse :
  fs !! src = Some Directory -> exists tr, run src dest recurse tr None.
Proof.
  intros Hdir.
  destruct (pool_run_exists fs encode (Pool_processes cpu_count) (listing src recurse)
              (Pool_processes_pos cpu_count)) as [s Hpool].
  eexists. by eapply cli_dir.
Qed.

Lemma cli_no_file src dest recurse tr out :
  fs !! src = None \/ fs !! src = Some Special ->
  run src dest recurse tr out ->
  tr = [] /\ out = Some BadParameter.
Proof.
  intros Hsrc Hrun.
  destruct Hrun as [s file_list Hd Hpool | | | |]; destruct Hsrc; by try congruence.
Qed.

End CliRuns.

(** X7. When the path does not exist, or is neither a directory nor a
    regular file, [cli] has one run: it raises [BadParameter], and it has
    printed nothing, listed nothing and made no pool. *)
Theorem cli_refuses_other_paths
  (fs : gmap Path node) (encode : Image -> string -> result (list byte))
  (glob_jpg rglob_jpg : Path -> list Path) (cpu_count : option positive)
  (src : Path) (dest : string) (recurse : bool) :
  fs !! src = None \/ fs !! src = Some Special ->
  cli fs encode glob_jpg rglob_jpg cpu_count src dest recurse [] (Some BadParameter)
  /\ forall tr out,
      cli fs encode glob_jpg rglob_jpg cpu_count src dest recurse tr out ->
      tr = [] /\ out = Some BadParameter.
Proof.
  intros Hsrc. split.
  - destruct Hsrc; [by apply cli_missing | by apply cli_other].
  - intros tr out Hrun. by eapply cli_no_file.
Qed.

Lemma cli_refuses_other_paths_witness :
  cli Sample.fs Sample.stored Sample.glob_jpg Sample.glob_jpg (Some 4%positive)
    ["nowhere"%string] "." true [] (Some BadParameter)
  /\ forall tr out,
      cli Sample.fs Sample.stored Sample.glob_jpg Sample.glob_jpg (Some 4%positive)
        ["nowhere"%string] "." true tr out ->
      tr = [] /\ out = Some BadParameter.
Proof.
  apply (cli_refuses_other_paths Sample.fs Sample.stored Sample.glob_jpg
           Sample.glob_jpg (Some 4%positive) ["nowhere"%string] "." true).
  left. vm_compute. reflexivity.
Defined.



(** X9. On a directory in which nothing is listed, [cli] prints
    [COUNT: 0], makes its pool, joins it and returns: this is its one
    run. *)
Theorem cli_empty_directory
  (fs : gmap Path node) (encode : Image -> string -> result (list byte))
  (glob_jpg rglob_jpg : Path -> list Path) (cpu_count : option positive)
  (src : Path) (dest : string) (recurse : bool) :
  fs !! src = Some Directory ->
  (if recurse then rglob_jpg src else glob_jpg src) = [] ->
  cli fs encode glob_jpg rglob_jpg cpu_count src dest recurse
    [Print "COUNT: 0"; PoolStart (Pool_processes cpu_count); PoolJoin] None
  /\ forall tr out,
      cli fs encode glob_jpg rglob_jpg cpu_count src dest recurse tr out ->
      tr = [Print "COUNT: 0"; PoolStart (Pool_processes cpu_count); PoolJoin]
      /\ out = None.
Proof.
  intros Hdir Hnone.
  assert (forall tr out,
             cli fs encode glob_jpg rglob_jpg cpu_count src dest recurse tr out ->
             tr = [Print "COUNT: 0"; PoolStart (Pool_processes cpu_count); PoolJoin]
             /\ out = None) as Hall.
  { intros tr out Hrun.
    destruct (cli_directory _ _ _ _ _ _ _ _ _ _ Hdir Hrun) as (-> & lines & -> & Hperm).
    rewrite Hnone in Hperm |- *. apply Permutation_nil_r in Hperm as ->.
    split; reflexivity. }
  split; [| exact Hall].
  destruct (cli_directory_runs fs encode glob_jpg rglob_jpg cpu_count src dest recurse Hdir)
    as [tr Hrun].
  by destruct (Hall _ _ Hrun) as [<- _].
Qed.

Lemma cli_empty_directory_witness :
  cli Archive.fs Sample.stored Sample.glob_jpg Sample.glob_jpg None Archive.empty
    "." false [Print "COUNT: 0"; PoolStart 1; PoolJoin] None
  /\ forall tr out,
      cli Archive.fs Sample.stored Sample.glob_jpg Sample.glob_jpg None Archive.empty
        "." false tr out ->
      tr = [Print "COUNT: 0"; PoolStart 1; PoolJoin] /\ out = None.
Proof.
  apply (cli_empty_directory Archive.fs Sample.stored Sample.glob_jpg Sample.glob_jpg
           None Archive.empty "." false); vm_compute; reflexivity.
Defined.

(** X10. The option [dest] has no effect, and of the two listings only
    the one that [recurse] selects is used: a run of [cli] is a run with
    any other [dest] and with any other listings that agree on the
    selected one at the given path. *)
Theorem cli_ignores_dest
  (fs : gmap Path node) (encode : Image -> string -> result (list byte))
  (glob_jpg rglob_jpg glob_jpg' rglob_jpg' : Path -> list Path)
  (cpu_count : option positive)
  (src : Path) (dest dest' : string) (recurse : bool)
  (tr : list event) (out : option exn) :
  cli fs encode glob_jpg rglob_jpg cpu_count src dest recurse tr out ->
  (if recurse then rglob_jpg src = rglob_jpg' src else glob_jpg src = glob_jpg' src) ->
  cli fs encode glob_jpg' rglob_jpg' cpu_count src dest' recurse tr out.
Proof.
  intros Hrun Hsame.
  destruct Hrun as [s file_list Hdir Hpool | f line Hf Hline | f e Hf He | Hf | Hf].
  - subst file_list.
    pose proof (cli_dir fs encode glob_jpg' rglob_jpg' cpu_count src dest' recurse s)
      as Hrun'.
    cbv zeta in Hrun'. destruct recurse; rewrite <- Hsame in Hrun'; by apply Hrun'.
  - by eapply cli_file_return.
  - by eapply cli_file_raise.
  - by apply cli_other.
  - by apply cli_missing.
Qed.

Lemma cli_ignores_dest_witness :
  cli Sample.fs Sample.stored Sample.glob_jpg (fun _ => []) (Some 4%positive)
    Sample.photos "/mnt/sorted" false
    [Print "COUNT: 4"; PoolStart 4;
     Print "b.jpg -- 1900-01-01 00:00:00 -- 658ce7d727ca5d58e1ff48393985a2ed6dcd1dbc";
     Print "a.jpg -- 2020-01-01 10:00:00 -- 658ce7d727ca5d58e1ff48393985a2ed6dcd1dbc";
     PoolJoin]
    None.
Proof.
  apply (cli_ignores_dest Sample.fs Sample.stored Sample.glob_jpg Sample.glob_jpg
           Sample.glob_jpg (fun _ => []) (Some 4%positive) Sample.photos "."
           "/mnt/sorted" false _ _ sample_directory_run).
  reflexivity.
Defined.

(** ** One worker *)

Lemma single_worker_order (fs : gmap Path node) encode file_list s :
  rtc (pool_step fs encode 1) (pool_init file_list) s ->
  finished s ++ running s ++ queue s = file_list.
Proof.
  revert s. apply rtc_ind_r; [reflexivity |].
  intros s1 s2 Hreach Hstep IH.
  destruct (pool_inv_reachable _ _ _ _ _ Hreach) as [_ _ Hbound].
  destruct Hstep as [f q r d o Hfree | q r1 f r2 d o]; simpl in *.
  - destruct r; [| simpl in Hfree; lia]. by rewrite <- IH.
  - rewrite length_app in Hbound. simpl in Hbound.
    destruct r1; [| simpl in Hbound; lia]. destruct r2; [| simpl in Hbound; lia].
    rewrite <- IH. simpl. by rewrite <- app_assoc.
Qed.

(** X11. With one worker, which is the pool of a host of one processing
    unit or of a host that does not tell their number, the units finish in
    the order of the list, and the lines of those that return are printed
    in that order: the output of [cli] on a directory is then one sequence
    of events. *)
Theorem single_worker_keeps_order
  (fs : gmap Path node) (encode : Image -> string -> result (list byte))
  (glob_jpg rglob_jpg : Path -> list Path) (cpu_count : option positive)
  (src : Path) (dest : string) (recurse : bool)
  (tr : list event) (out : option exn) :
  cpu_count = None \/ cpu_count = Some 1%positive ->
  fs !! src = Some Directory ->
  cli fs encode glob_jpg rglob_jpg cpu_count src dest recurse tr out ->
  tr = Print (count_line (if recurse then rglob_jpg src else glob_jpg src))
         :: PoolStart 1
         :: map Print
              (lines_of fs encode (if recurse then rglob_jpg src else glob_jpg src))
         ++ [PoolJoin]
  /\ (forall s,
        pool_run fs encode 1 (if recurse then rglob_jpg src else glob_jpg src) s ->
        finished s = (if recurse then rglob_jpg src else glob_jpg src)).
Proof.
  intros Hcpu Hdir Hrun.
  assert (forall file_list s,
             pool_run fs encode 1 file_list s -> finished s = file_list) as Horder.
  { intros file_list s [Hreach [Hq Hr]].
    apply single_worker_order in Hreach. rewrite Hq, Hr in Hreach.
    by rewrite !app_nil_r in Hreach. }
  split; [| intros s; apply Horder].
  assert (Pool_processes cpu_count = 1%nat) as Hone
    by (destruct Hcpu as [-> | ->]; reflexivity).
  destruct Hrun as [s file_list Hd Hpool | | | |]; try congruence.
  rewrite Hone in Hpool |- *.
  pose proof (Horder _ _ Hpool) as Hfin.
  apply pool_run_outcome in Hpool as [_ Hprinted].
  by rewrite Hprinted, Hfin.
Qed.

Lemma single_worker_sample_run :
  cli Sample.fs Sample.stored Sample.glob_jpg Sample.glob_jpg None
    Sample.photos "." false
    [Print "COUNT: 4"; PoolStart 1;
     Print "a.jpg -- 2020-01-01 10:00:00 -- 658ce7d727ca5d58e1ff48393985a2ed6dcd1dbc";
     Print "b.jpg -- 1900-01-01 00:00:00 -- 658ce7d727ca5d58e1ff48393985a2ed6dcd1dbc";
     PoolJoin]
    None.
Proof.
  pose (s := mkPool [] [] [Sample.a; Sample.b; Sample.c; Sample.d]
               (lines_of Sample.fs Sample.stored [Sample.a; Sample.b; Sample.c; Sample.d])).
  assert (pool_run Sample.fs Sample.stored 1 [Sample.a; Sample.b; Sample.c; Sample.d] s)
    as Hpool.
  { apply (pool_exec_run _ _ _
             [Claim; Finish 0; Claim; Finish 0; Claim; Finish 0; Claim; Finish 0]);
      [vm_compute; reflexivity | reflexivity | reflexivity]. }
  pose proof (cli_dir Sample.fs Sample.stored Sample.glob_jpg Sample.glob_jpg
                None Sample.photos "." false s) as Hcli.
  cbv zeta in Hcli.
  assert (Sample.fs !! Sample.photos = Some Directory) as Hdir
    by (vm_compute; reflexivity).
  specialize (Hcli Hdir Hpool).
  vm_compute in Hcli. exact Hcli.
Defined.

Lemma single_worker_keeps_order_witness :
  [Print "COUNT: 4"; PoolStart 1;
   Print "a.jpg -- 2020-01-01 10:00:00 -- 658ce7d727ca5d58e1ff48393985a2ed6dcd1dbc";
   Print "b.jpg -- 1900-01-01 00:00:00 -- 658ce7d727ca5d58e1ff48393985a2ed6dcd1dbc";
   PoolJoin]
  = Print (count_line (Sample.glob_jpg Sample.photos))
      :: PoolStart 1
      :: map Print (lines_of Sample.fs Sample.stored (Sample.glob_jpg Sample.photos))
      ++ [PoolJoin]
  /\ (forall s,
        pool_run Sample.fs Sample.stored 1 (Sample.glob_jpg Sample.photos) s ->
        finished s = Sample.glob_jpg Sample.photos).
Proof.
  apply (single_worker_keeps_order Sample.fs Sample.stored Sample.glob_jpg
           Sample.glob_jpg None Sample.photos "." false _ None).
  - by left.
  - vm_compute. reflexivity.
  - exact single_worker_sample_run.
Defined.

(** ** The order in which units start *)

(** X12. In every state that a batch reaches, the files that still wait
    are an end of the list, in its order, and those before them are the
    ones that run or have finished: the units start in the order of the
    list, whatever the order in which they finish, and no more of them run
    than there are workers. *)
Theorem units_start_in_list_order
  (fs : gmap Path node) (encode : Image -> string -> result (list byte))
  (processes : nat) (file_list : list Path) (s : pool_state) :
  rtc (pool_step fs encode processes) (pool_init file_list) s ->
  exists started,
    file_list = started ++ queue s
    /\ started ≡ₚ running s ++ finished s
    /\ (length (running s) <= processes)%nat.
Proof.
  intros Hreach.
  destruct (pool_inv_reachable _ _ _ _ _ Hreach) as [_ _ Hbound].
  cut (exists started,
          file_list = started ++ queue s /\ started ≡ₚ running s ++ finished s).
  { intros (started & Hlist & Hperm). by exists started. }
  clear Hbound. revert s Hreach. apply rtc_ind_r.
  - exists []. by split.
  - intros s1 s2 _ Hstep (started & Hlist & Hperm).
    destruct Hstep as [f q r d o Hfree | q r1 f r2 d o]; simpl in *.
    + exists (started ++ [f]). split; [by rewrite <- app_assoc |].
      rewrite Hperm. solve_Permutation.
    + exists started. split; [done |]. rewrite Hperm. solve_Permutation.
Qed.

Lemma units_start_in_list_order_witness :
  exists started,
    [Sample.a; Sample.d; Sample.b] = started ++ [Sample.b]
    /\ started ≡ₚ [Sample.a] ++ [Sample.d]
    /\ (length [Sample.a] <= 2)%nat.
Proof.
  apply (units_start_in_list_order Sample.fs Sample.stored 2
           [Sample.a; Sample.d; Sample.b]
           (mkPool [Sample.b] [Sample.a] [Sample.d] [])).
  apply (pool_exec_steps _ _ _ [Claim; Claim; Finish 1]).
  vm_compute. reflexivity.
Defined.
